(** * Mindrix RAG core: a shallow embedding of [utils/rag_system.py]

    The development follows the Python class [RAGSystem]:
    - [Py]       : the Python string and list primitives the code relies on
                   (slicing with negative offsets, [rfind], [strip], [pop]);
    - [Chunker]  : [_chunk_text], a [while] loop, modelled with fuel;
    - [Rag]      : the in-memory catalog, the vector store and the two
                   persisted artifacts, with [_process_document],
                   [remove_document], [_retrieve_relevant_chunks] and [query].

    The embedding model and the FAISS index are type classes; what the file
    system, Firestore and the Groq completion do during one call is a field
    of the environment record [Env] given to that call.  Python integers are
    [Z]; a Python string is a [string] whose characters are the code points
    below 256. *)

From Stdlib Require Import ZArith List String Ascii Bool Lia Permutation DecimalString.
Import ListNotations.
Open Scope string_scope.
Open Scope list_scope.
Open Scope Z_scope.

(** ** Python primitives *)

Module Py.

(** [len(s)] as a Python integer. *)
Definition len (s : string) : Z := Z.of_nat (String.length s).

(** How a slice bound is normalised: a negative bound counts from the end,
    and the result is clamped to [0, n]. *)
Definition clamp (n i : Z) : Z :=
  if i <? 0 then Z.max 0 (i + n) else Z.min i n.

(** [s[a:b]] *)
Definition slice (s : string) (a b : Z) : string :=
  let n := len s in
  let a' := clamp n a in
  let b' := clamp n b in
  if a' <? b' then substring (Z.to_nat a') (Z.to_nat (b' - a')) s else "".

Fixpoint rfind_aux (c : ascii) (s : string) (i acc : Z) : Z :=
  match s with
  | EmptyString => acc
  | String a s' => rfind_aux c s' (i + 1) (if Ascii.eqb a c then i else acc)
  end.

(** [s.rfind(c)] for a one-character needle: the highest index, or -1. *)
Definition rfind (c : ascii) (s : string) : Z := rfind_aux c s 0 (-1).

(** [str.isspace] on the code points below 256. *)
Definition isspace (a : ascii) : bool :=
  let n := nat_of_ascii a in
  ((9 <=? n) && (n <=? 13) || (28 <=? n) && (n <=? 32)
   || (n =? 133) || (n =? 160))%nat.

Fixpoint lstrip (s : string) : string :=
  match s with
  | EmptyString => EmptyString
  | String a s' => if isspace a then lstrip s' else s
  end.

Fixpoint rstrip (s : string) : string :=
  match s with
  | EmptyString => EmptyString
  | String a s' =>
      match rstrip s' with
      | EmptyString => if isspace a then EmptyString else String a EmptyString
      | r => String a r
      end
  end.

(** [s.strip()] *)
Definition strip (s : string) : string := rstrip (lstrip s).

(** Truth value of a string: [if s]. *)
Definition truthy (s : string) : bool :=
  match s with EmptyString => false | _ => true end.

Definition lower_char (a : ascii) : ascii :=
  let n := nat_of_ascii a in
  if ((65 <=? n) && (n <=? 90))%nat then ascii_of_nat (n + 32) else a.

(** [s.lower()] on ASCII letters. *)
Fixpoint lower (s : string) : string :=
  match s with
  | EmptyString => EmptyString
  | String a s' => String (lower_char a) (lower s')
  end.

(** [s.endswith(suffix)] *)
Definition endswith (s suffix : string) : bool :=
  let n := String.length s in
  let m := String.length suffix in
  ((m <=? n)%nat && String.eqb (substring (n - m) m s) suffix)%bool.

(** [os.path.basename(p)]: what follows the last slash. *)
Definition basename (p : string) : string :=
  slice p (rfind "/" p + 1) (len p).

(** [l[i]] for a Python integer [i]; [None] stands for [IndexError]. *)
Definition index {A} (l : list A) (i : Z) : option A :=
  let n := Z.of_nat (List.length l) in
  if (0 <=? i) && (i <? n) then nth_error l (Z.to_nat i)
  else if (- n <=? i) && (i <? 0) then nth_error l (Z.to_nat (i + n))
  else None.

(** [l.pop(i)]: the removed element and the remaining list; [None] stands
    for [IndexError], in which case the list is untouched. *)
Definition pop {A} (l : list A) (i : Z) : option (A * list A) :=
  let n := Z.of_nat (List.length l) in
  let pos := if i <? 0 then i + n else i in
  if (0 <=? pos) && (pos <? n) then
    match nth_error l (Z.to_nat pos) with
    | Some x => Some (x, firstn (Z.to_nat pos) l ++ skipn (S (Z.to_nat pos)) l)
    | None => None
    end
  else None.

End Py.

(** ** The chunker *)

Module Chunker.
Import Py.

Definition newline : ascii := "010"%char.

(** One pass through the body of the [while] loop up to [chunks.append]:
    the window that is emitted and the value of [end]. *)
Definition chunk_window (text : string) (chunk_size start : Z) : string * Z :=
  let end_ := start + chunk_size in
  let chunk := slice text start end_ in
  if end_ <? len text then
    let last_period := rfind "." chunk in
    let last_newline := rfind newline chunk in
    let boundary := Z.max last_period last_newline in
    if boundary >? start + chunk_size / 2 then
      (slice text start (start + boundary + 1), start + boundary + 1)
    else (chunk, end_)
  else (chunk, end_).

(** The [while start < len(text)] loop; [None] when the fuel runs out. *)
Fixpoint chunk_loop (fuel : nat) (text : string) (chunk_size overlap : Z)
         (start : Z) (chunks : list string) : option (list string) :=
  match fuel with
  | O => None
  | S fuel' =>
      if start <? len text then
        let '(chunk, end_) := chunk_window text chunk_size start in
        let chunks' := chunks ++ [strip chunk] in
        let start' := end_ - overlap in
        if start' >=? len text then Some chunks'
        else chunk_loop fuel' text chunk_size overlap start' chunks'
      else Some chunks
  end.

(** [_chunk_text(text, chunk_size, overlap)] *)
Definition _chunk_text (fuel : nat) (text : string) (chunk_size overlap : Z)
  : option (list string) :=
  if truthy text then
    match chunk_loop fuel text chunk_size overlap 0 [] with
    | Some chunks => Some (filter truthy chunks)
    | None => None
    end
  else Some [].

(** The window rule as the specification words it: the boundary is compared
    with the midpoint of the window, whatever the window's start. *)
Definition chunk_window_spec (text : string) (chunk_size start : Z) : string * Z :=
  let end_ := start + chunk_size in
  let chunk := slice text start end_ in
  if end_ <? len text then
    let boundary := Z.max (rfind "." chunk) (rfind newline chunk) in
    if boundary >? chunk_size / 2 then
      (slice text start (start + boundary + 1), start + boundary + 1)
    else (chunk, end_)
  else (chunk, end_).

(** The call made by [_process_document]: default [chunk_size] and
    [overlap].  The loop ends within [len(text)] passes (see
    [chunk_default_runs]), so the fuel given here is never exhausted. *)
Definition default_fuel (text : string) : nat := S (String.length text).

Definition chunk_default (text : string) : list string :=
  match _chunk_text (default_fuel text) text 1000 200 with
  | Some chunks => chunks
  | None => []
  end.

(** *** Sample texts *)

(** A text of 15 characters with its only full stop at position 6. *)
Definition looping_text : string := "aaaaaa.aaaaaaaa".

(** Thirty characters without white space; the only full stop is at
    position 14. *)
Definition late_stop_text : string := "aaaaaaaaaabbbb.ccccccccccccccc".

End Chunker.

(** ** The RAG system *)

Module Rag.
Import Py Chunker.

(** *** External capabilities *)

(** The sentence-embedding model: [encode] maps each text of a batch to its
    vector, the same vector for the same text. *)
Class EmbeddingProvider := {
  vec : Type;
  embed : string -> vec
}.

(** A flat inner-product index.  [rank q vs] lists the positions of the
    stored vectors by descending similarity with [q]; a search for more
    neighbours than are stored pads the answer with the label -1 and the
    score [pad_score]. *)
Class VectorIndex (V : Type) := {
  score : Type;
  inner : V -> V -> score;
  pad_score : score;
  rank : V -> list V -> list nat;
  rank_perm : forall q vs, Permutation (rank q vs) (seq 0 (List.length vs))
}.

(** *** Data model *)

(** An upload date is a [datetime] when the record was made by this process
    and a string when it was read back from [documents.json]; a [datetime] is
    represented by what [str] gives for it. *)
Inductive PyDate :=
| Datetime (rendering : string)
| DateStr (s : string).

Record Document := {
  id : Z;
  filename : string;
  file_path : string;
  upload_date : PyDate;
  chunk_count : Z
}.

Record Chunk := {
  doc_id : Z;
  chunk_id : Z;
  text : string;
  chunk_filename : string;
  chunk_index : Z
}.

(** The state of a file of the working directory. *)
Inductive File (A : Type) :=
| Missing
| Corrupt
| Stored (content : A).
Arguments Missing {A}.
Arguments Corrupt {A}.
Arguments Stored {A} content.

Section Model.
Context `{EP : EmbeddingProvider} `{VI : VectorIndex vec}.

(** The mutable attributes of a [RAGSystem] instance. *)
Record RAGSystem := {
  documents : list Document;
  document_chunks : list Chunk;
  vector_store : list vec
}.

(** [vector_index.faiss] and [documents.json]. *)
Record Disk := {
  index_file : File (list vec);
  docs_file : File (list Document * list Chunk)
}.

(** What the outside world does during one call. *)
Record Env := {
  file_text : option string;    (* file.read(); None: opening or reading raises *)
  pdf_pages : option (list string);
                                (* extract_text() of each page; None: it raises *)
  now : string;                 (* str(datetime.now()) *)
  encode_raises : bool;         (* embedding_model.encode raises *)
  save_failure : option Disk;   (* Some d: writing raises and leaves the disk as d *)
  firestore_raises : bool;      (* the Firestore call raises *)
  groq_reply : option string    (* the completion; None: the call raises *)
}.

Definition empty_system : RAGSystem :=
  {| documents := []; document_chunks := []; vector_store := [] |}.

Definition empty_disk : Disk :=
  {| index_file := Missing; docs_file := Missing |}.

(** [json.dump(..., default=str)]: a [datetime] is written as its string. *)
Definition json_date (d : PyDate) : PyDate :=
  match d with
  | Datetime r => DateStr r
  | DateStr s => DateStr s
  end.

Definition json_document (d : Document) : Document :=
  {| id := id d; filename := filename d; file_path := file_path d;
     upload_date := json_date (upload_date d); chunk_count := chunk_count d |}.

(** [_load_or_create_vector_store] *)
Definition _load_or_create_vector_store (disk : Disk) : RAGSystem :=
  match index_file disk, docs_file disk with
  | Stored vs, Stored (docs, chunks) =>
      {| documents := docs; document_chunks := chunks; vector_store := vs |}
  | _, _ => empty_system
  end.

(** [_save_vector_store] *)
Definition _save_vector_store (env : Env) (s : RAGSystem) (disk : Disk) : Disk :=
  match save_failure env with
  | Some d => d
  | None =>
      {| index_file := Stored (vector_store s);
         docs_file := Stored (map json_document (documents s), document_chunks s) |}
  end.

(** [_extract_text_from_pdf] *)
Definition _extract_text_from_pdf (env : Env) : string :=
  match pdf_pages env with
  | Some pages =>
      strip (fold_left (fun acc page => (acc ++ page ++ String newline "")%string)
                       pages "")
  | None => ""
  end.

(** [_extract_text_from_txt] *)
Definition _extract_text_from_txt (env : Env) : string :=
  match file_text env with
  | Some raw => strip raw
  | None => ""
  end.

(** [enumerate(l)] *)
Definition enumerate {A} (l : list A) : list (Z * A) :=
  combine (map Z.of_nat (seq 0 (List.length l))) l.

Definition llen {A} (l : list A) : Z := Z.of_nat (List.length l).

(** [embedding_model.encode(texts)] when it does not raise. *)
Definition encode (texts : list string) : list vec := map embed texts.

(** [_process_document] *)
Definition _process_document (env : Env) (path : string) (s : RAGSystem) (disk : Disk)
  : bool * RAGSystem * Disk :=
  match (if endswith (lower path) ".pdf" then Some (_extract_text_from_pdf env)
         else if endswith (lower path) ".txt" then Some (_extract_text_from_txt env)
         else None) with
  | None => (false, s, disk)
  | Some body =>
      if truthy body then
        let filename := basename path in
        let doc_id := llen (documents s) in
        let chunks := chunk_default body in
        match chunks with
        | [] => (false, s, disk)
        | _ =>
            let chunk_records :=
              map (fun '(i, chunk) =>
                     {| doc_id := doc_id;
                        chunk_id := llen (document_chunks s) + i;
                        text := chunk;
                        chunk_filename := filename;
                        chunk_index := i |})
                  (enumerate chunks) in
            let chunk_texts := map text chunk_records in
            if encode_raises env then (false, s, disk)
            else
              let embeddings := encode chunk_texts in
              let doc_record :=
                {| id := doc_id; filename := filename; file_path := path;
                   upload_date := Datetime (now env);
                   chunk_count := llen chunks |} in
              let s' :=
                {| documents := documents s ++ [doc_record];
                   document_chunks := document_chunks s ++ chunk_records;
                   vector_store := vector_store s ++ embeddings |} in
              (true, s', _save_vector_store env s' disk)
        end
      else (false, s, disk)
  end.

(** [remove_document] *)
Definition remove_document (env : Env) (doc : Z) (s : RAGSystem) (disk : Disk)
  : bool * RAGSystem * Disk :=
  if doc >=? llen (documents s) then (false, s, disk)
  else
    match pop (documents s) doc with
    | None => (false, s, disk)
    | Some (removed_doc, docs') =>
        let chunks' := filter (fun c => negb (doc_id c =? doc)) (document_chunks s) in
        match chunks' with
        | _ :: _ =>
            if encode_raises env then
              (false,
               {| documents := docs'; document_chunks := chunks';
                  vector_store := vector_store s |},
               disk)
            else
              let s' := {| documents := docs'; document_chunks := chunks';
                           vector_store := encode (map text chunks') |} in
              (negb (firestore_raises env), s', _save_vector_store env s' disk)
        | [] =>
            let s' := {| documents := docs'; document_chunks := chunks';
                         vector_store := [] |} in
            (negb (firestore_raises env), s', _save_vector_store env s' disk)
        end
    end.

(** *** Queries *)

(** A retrieved chunk: a copy of the record with its similarity score. *)
Record Hit := {
  hit_chunk : Chunk;
  similarity_score : score
}.

(** The calls a query makes to the outside world. *)
Inductive Event :=
| CallEncode (texts : list string)
| CallSearch (top_k : nat)
| CallGroq (prompt : string)
| CallLog (query : string) (num_relevant_chunks total_documents : Z).

(** [vector_store.search(q, k)]: one (score, label) pair per requested
    neighbour. *)
Definition search (vs : list vec) (q : vec) (k : nat) : list (score * Z) :=
  let found := firstn k (rank q vs) in
  map (fun i => (match nth_error vs i with
                 | Some v => inner q v
                 | None => pad_score
                 end, Z.of_nat i)) found
  ++ repeat (pad_score, -1) (k - List.length found).

(** The loop over the search results; [None] when indexing the chunk list
    raises. *)
Fixpoint collect_hits (chunks : list Chunk) (results : list (score * Z))
  : option (list Hit) :=
  match results with
  | [] => Some []
  | (sc, idx) :: rest =>
      if idx <? llen chunks then
        match index chunks idx with
        | None => None
        | Some c =>
            match collect_hits chunks rest with
            | Some hits => Some ({| hit_chunk := c; similarity_score := sc |} :: hits)
            | None => None
            end
        end
      else collect_hits chunks rest
  end.

(** [_retrieve_relevant_chunks] *)
Definition _retrieve_relevant_chunks (env : Env) (query : string) (top_k : nat)
           (s : RAGSystem) : list Hit * list Event :=
  match document_chunks s with
  | [] => ([], [])
  | _ =>
      if encode_raises env then ([], [CallEncode [query]])
      else
        let results := search (vector_store s) (embed query) top_k in
        match collect_hits (document_chunks s) results with
        | Some hits => (hits, [CallEncode [query]; CallSearch top_k])
        | None => ([], [CallEncode [query]; CallSearch top_k])
        end
  end.

Definition nl : string := String newline "".

(** [sep.join(parts)] *)
Fixpoint join (sep : string) (parts : list string) : string :=
  match parts with
  | [] => ""
  | [p] => p
  | p :: rest => (p ++ sep ++ join sep rest)%string
  end.

Definition context_block (context_chunks : list Hit) : string :=
  join (nl ++ nl)%string
       (map (fun h => ("From " ++ chunk_filename (hit_chunk h) ++ ":" ++ nl
                       ++ text (hit_chunk h))%string) context_chunks).

Definition prompt_of (query : string) (context_chunks : list Hit) : string :=
  ("Based on the following context from uploaded notes and documents, please answer the question. If the answer cannot be found in the context, say so clearly."
   ++ nl ++ nl ++ "Context:" ++ nl ++ context_block context_chunks
   ++ nl ++ nl ++ "Question: " ++ query ++ nl ++ nl ++ "Answer:")%string.

Definition generation_apology : string :=
  "I apologize, but I encountered an error while generating a response. Please try again.".

Definition blank_reply : string := "Please provide a valid question.".

Definition no_information_reply : string :=
  "I don't have any relevant information to answer your question. Please make sure notes have been uploaded and try rephrasing your question.".

(** [_generate_response] *)
Definition _generate_response (env : Env) (query : string) (context_chunks : list Hit)
  : string * list Event :=
  (match groq_reply env with
   | Some r => r
   | None => generation_apology
   end, [CallGroq (prompt_of query context_chunks)]).

(** [_log_query] *)
Definition _log_query (q : string) (num_chunks : Z) (s : RAGSystem) : list Event :=
  [CallLog q num_chunks (llen (documents s))].

(** [query] *)
Definition query (env : Env) (q : string) (s : RAGSystem) : string * list Event :=
  if truthy (strip q) then
    let '(relevant_chunks, ev1) := _retrieve_relevant_chunks env q 5 s in
    match relevant_chunks with
    | [] => (no_information_reply, ev1)
    | _ =>
        let '(response, ev2) := _generate_response env q relevant_chunks in
        (response, ev1 ++ ev2 ++ _log_query q (llen relevant_chunks) s)
    end
  else (blank_reply, []).

(** *** Operations and reachable states *)

Inductive Op :=
| Ingest (path : string)
| Remove (doc : Z).

Definition run_op (env : Env) (op : Op) (s : RAGSystem) (disk : Disk)
  : bool * RAGSystem * Disk :=
  match op with
  | Ingest path => _process_document env path s disk
  | Remove doc => remove_document env doc s disk
  end.

(** States reached from a fresh instance over an empty directory through
    calls that returned [True]. *)
Inductive reachable_ok : RAGSystem -> Disk -> Prop :=
| reach_init : reachable_ok (_load_or_create_vector_store empty_disk) empty_disk
| reach_step s disk env op s' disk' :
    reachable_ok s disk ->
    run_op env op s disk = (true, s', disk') ->
    reachable_ok s' disk'.

(** Invariant I1 *)
Definition aligned (s : RAGSystem) : Prop :=
  List.length (document_chunks s) = List.length (vector_store s)
  /\ forall i c, nth_error (document_chunks s) i = Some c ->
                 nth_error (vector_store s) i = Some (embed (text c)).

(** Invariant I2, as a check that can be run. *)
Definition chunks_of (s : RAGSystem) (d : Document) : Z :=
  llen (filter (fun c => doc_id c =? id d) (document_chunks s)).

Definition counts_agree (s : RAGSystem) : bool :=
  forallb (fun d => chunk_count d =? chunks_of s d) (documents s).

End Model.

Arguments RAGSystem {EP}.
Arguments Disk {EP}.
Arguments Env {EP}.

(** A small embedding model and index to run the definitions on: the vector
    of a text is the text itself, the similarity of two texts is the length
    of the stored one, and positions are ranked in storage order. *)
Module Toy.

#[export] Instance text_embedding : EmbeddingProvider :=
  {| vec := string; embed := fun t => t |}.

#[export] Instance storage_order_index : VectorIndex string :=
  {| score := Z; inner := fun _ v => len v; pad_score := -1;
     rank := fun _ vs => seq 0 (List.length vs);
     rank_perm := fun _ vs => Permutation_refl _ |}.

(** A call during which nothing fails. *)
Definition calm (raw stamp : string) : Env :=
  {| file_text := Some raw; pdf_pages := Some [raw]; now := stamp;
     encode_raises := false;
     save_failure := None; firestore_raises := false;
     groq_reply := Some "ok" |}.

(** The same call with a failing embedding model. *)
Definition encode_down (raw stamp : string) : Env :=
  {| file_text := Some raw; pdf_pages := Some [raw]; now := stamp;
     encode_raises := true;
     save_failure := None; firestore_raises := false;
     groq_reply := Some "ok" |}.

(** The outcome of a call: the returned flag, the instance and the disk. *)
Definition Outcome : Type := bool * RAGSystem * Disk.

Definition ok_of (w : Outcome) : bool := fst (fst w).
Definition sys_of (w : Outcome) : RAGSystem := snd (fst w).
Definition disk_of (w : Outcome) : Disk := snd w.

(** A fresh instance started in an empty directory. *)
Definition fresh : Outcome :=
  (true, _load_or_create_vector_store empty_disk, empty_disk).

(** The next call on the instance and disk an earlier call left. *)
Definition after (w : Outcome) (env : Env) (op : Op) : Outcome :=
  run_op env op (sys_of w) (disk_of w).

(** [a.txt] holds one chunk. *)
Definition one_doc : Outcome :=
  after fresh (calm "alpha" "2025-01-01 10:00:00") (Ingest "notes/a.txt").

(** [a.txt], then [b.txt], one chunk each. *)
Definition two_docs : Outcome :=
  after one_doc (calm "beta gamma" "2025-01-01 10:05:00") (Ingest "notes/b.txt").

(** Document 0 is removed, then [c.txt] is ingested. *)
Definition removed_first : Outcome :=
  after two_docs (calm "" "2025-01-01 10:10:00") (Remove 0).

Definition reingested : Outcome :=
  after removed_first (calm "delta." "2025-01-01 10:15:00") (Ingest "notes/c.txt").

End Toy.

End Rag.

(** ** Runs made of ingestions only *)

Module Ingestion.
Import Py Chunker Rag.

Section Runs.
Context `{EP : EmbeddingProvider} `{VI : VectorIndex vec}.

(** States reached from a fresh instance over an empty directory through
    calls of [_process_document] alone, whatever they returned. *)
Inductive ingest_only : RAGSystem -> Prop :=
| ingest_init : ingest_only (_load_or_create_vector_store empty_disk)
| ingest_step s disk env path r s' disk' :
    ingest_only s ->
    _process_document env path s disk = (r, s', disk') ->
    ingest_only s'.

(** What [_process_document] extracts, by the extension of the path;
    [None] for an unsupported file type. *)
Definition extraction_of (env : Env) (path : string) : option string :=
  if endswith (lower path) ".pdf" then Some (_extract_text_from_pdf env)
  else if endswith (lower path) ".txt" then Some (_extract_text_from_txt env)
  else None.

(** Document ids are list positions. *)
Definition ids_are_positions (s : RAGSystem) : Prop :=
  forall i d, nth_error (documents s) i = Some d -> id d = Z.of_nat i.

(** Chunk ids are list positions. *)
Definition chunk_ids_are_positions (s : RAGSystem) : Prop :=
  forall i c, nth_error (document_chunks s) i = Some c -> chunk_id c = Z.of_nat i.

(** Every chunk points at a position of the document list. *)
Definition chunks_owned (s : RAGSystem) : Prop :=
  forall c, In c (document_chunks s) -> 0 <= doc_id c < llen (documents s).

(** What the ingest-only runs keep. *)
Definition numbered (s : RAGSystem) : Prop :=
  ids_are_positions s /\ chunk_ids_are_positions s /\ chunks_owned s
  /\ counts_agree s = true.

End Runs.
End Ingestion.

(** ** The routes of [app.py] that drive the RAG system *)

Module App.
Import Py Chunker Rag.

(** [ALLOWED_EXTENSIONS]; a Python set, used for membership only. *)
Definition ALLOWED_EXTENSIONS : list string :=
  ["txt"; "pdf"; "doc"; "docx"; "ppt"; "pptx"].

(** [c in s] for a one-character needle. *)
Definition contains (c : ascii) (s : string) : bool := 0 <=? rfind c s.

(** [s.rsplit(c, 1)[1]] when [c] occurs in [s]: what follows its last
    occurrence. *)
Definition rsplit_last (c : ascii) (s : string) : string :=
  slice s (rfind c s + 1) (len s).

(** [allowed_file] *)
Definition allowed_file (filename : string) : bool :=
  contains "." filename
  && existsb (String.eqb (lower (rsplit_last "." filename))) ALLOWED_EXTENSIONS.

(** What [file_manager.save_file] did for one upload: it returned [None],
    it stored the file and returned its path, or it raised. *)
Inductive SaveOutcome :=
| SaveNone
| Saved (stored_path : string)
| SaveRaises (message : string).

(** The Flask session, as far as the routes read it. *)
Record Session := {
  user_id : option string;
  user_type : option string
}.

(** The body of a JSON response and its status. *)
Record Response := {
  status : Z;
  error : option string;
  success : option bool;
  uploaded_files : list (string * string * string);  (* filename, department, subject *)
  failed_files : list (string * string);             (* filename, error *)
  message : option string;
  response : option string
}.

Definition error_response (code : Z) (msg : string) : Response :=
  {| status := code; error := Some msg; success := None; uploaded_files := [];
     failed_files := []; message := None; response := None |}.

(** [str(n)] for a length. *)
Definition str_of_nat (n : nat) : string :=
  DecimalString.NilZero.string_of_uint (Nat.to_uint n).

Section Routes.
Context `{EP : EmbeddingProvider} `{VI : VectorIndex vec}.

(** One uploaded file: its name, what saving it does and what the outside
    world does while it is processed. *)
Record Upload := {
  upload_filename : string;
  saved : SaveOutcome;
  world : Env
}.

(** [RAGSystem.add_document]; the right side is an exception that
    [save_file] let through. *)
Definition add_document (file : Upload) (s : RAGSystem) (disk : Disk)
  : (bool * RAGSystem * Disk) + string :=
  match saved file with
  | Saved path => inl (_process_document (world file) path s disk)
  | SaveNone => inl (false, s, disk)
  | SaveRaises msg => inr msg
  end.

(** The state of the loop of [upload_notes]. *)
Record UploadLoop := {
  loop_rag : RAGSystem;
  loop_disk : Disk;
  loop_uploaded : list (string * string * string);
  loop_failed : list (string * string)
}.

(** One pass of [for file in files]. *)
Definition upload_one (department subject : string) (st : UploadLoop)
           (file : Upload) : UploadLoop :=
  let fail name msg :=
    {| loop_rag := loop_rag st; loop_disk := loop_disk st;
       loop_uploaded := loop_uploaded st;
       loop_failed := loop_failed st ++ [(name, msg)] |} in
  if truthy (upload_filename file) then
    if allowed_file (upload_filename file) then
      match add_document file (loop_rag st) (loop_disk st) with
      | inl (true, s', disk') =>
          {| loop_rag := s'; loop_disk := disk';
             loop_uploaded :=
               loop_uploaded st ++ [(upload_filename file, department, subject)];
             loop_failed := loop_failed st |}
      | inl (false, s', disk') =>
          {| loop_rag := s'; loop_disk := disk';
             loop_uploaded := loop_uploaded st;
             loop_failed :=
               loop_failed st
               ++ [(upload_filename file, "Failed to process document")] |}
      | inr msg => fail (upload_filename file) msg
      end
    else fail (upload_filename file) "File type not allowed"
  else fail "Unknown" "No filename".

(** The form of an upload request: the files under the key [file] ([None]
    when the key is absent) and the two optional form fields. *)
Record UploadRequest := {
  files : option (list Upload);
  department : option string;
  subject : option string
}.

Definition form_get (field : option string) (default : string) : string :=
  match field with Some v => v | None => default end.

(** [upload_notes]; [rag_system] is [None] when its construction failed. *)
Definition upload_notes (session : Session) (rag_system : option RAGSystem)
           (disk : Disk) (request : UploadRequest)
  : Response * option RAGSystem * Disk :=
  match user_id session with
  | None => (error_response 403 "Unauthorized - Please login", rag_system, disk)
  | Some _ =>
      if match user_type session with
         | Some t => negb (String.eqb t "faculty")
         | None => true
         end
      then (error_response 403 "Unauthorized - Faculty access required",
            rag_system, disk)
      else
        match rag_system with
        | None =>
            (error_response 500 "System not ready - RAG system initialization failed",
             rag_system, disk)
        | Some rag =>
            match files request with
            | None => (error_response 400 "No file provided", rag_system, disk)
            | Some fs =>
                if match fs with
                   | [] => true
                   | [f] => negb (truthy (upload_filename f))
                   | _ => false
                   end
                then (error_response 400 "No file selected", rag_system, disk)
                else
                  let st :=
                    fold_left
                      (upload_one (form_get (department request) "General")
                                  (form_get (subject request) "General"))
                      fs
                      {| loop_rag := rag; loop_disk := disk;
                         loop_uploaded := []; loop_failed := [] |} in
                  let n := List.length (loop_uploaded st) in
                  let m := List.length (loop_failed st) in
                  if (0 <? n)%nat then
                    ({| status := 200; error := None; success := Some true;
                        uploaded_files := loop_uploaded st;
                        failed_files := loop_failed st;
                        message :=
                          Some (("Successfully uploaded " ++ str_of_nat n ++ " file(s)"
                                 ++ (if (0 <? m)%nat
                                     then ", " ++ str_of_nat m ++ " file(s) failed"
                                     else ""))%string);
                        response := None |},
                     Some (loop_rag st), loop_disk st)
                  else
                    ({| status := 400;
                        error := Some "No files were uploaded successfully";
                        success := Some false;
                        uploaded_files := loop_uploaded st;
                        failed_files := loop_failed st;
                        message := None; response := None |},
                     Some (loop_rag st), loop_disk st)
            end
        end
  end.

(** [query_notes].  [data] is the JSON body: [None] when [get_json] gives
    no object, [Some None] when the key [query] is absent or null,
    [Some (Some q)] when it holds the string [q]. *)
Definition query_notes (session : Session) (rag_system : option RAGSystem)
           (data : option (option string)) (env : Env)
  : Response * list Event :=
  match user_id session with
  | None => (error_response 401 "Unauthorized", [])
  | Some _ =>
      match rag_system with
      | None => (error_response 500 "System not ready", [])
      | Some rag =>
          match data with
          | None => (error_response 500 "Query processing failed", [])
          | Some field =>
              match field with
              | Some q =>
                  if truthy q then
                    let '(answer, events) := query env q rag in
                    ({| status := 200; error := None; success := None;
                        uploaded_files := []; failed_files := [];
                        message := None; response := Some answer |}, events)
                  else (error_response 400 "Query is required", [])
              | None => (error_response 400 "Query is required", [])
              end
          end
      end
  end.

End Routes.
End App.

(** ** Sample environments, states and requests *)

Module Samples.
Import Py Chunker Rag Rag.Toy App.

(** A call during which only the Firestore request fails. *)
Definition firestore_down (raw stamp : string) : Env :=
  {| file_text := Some raw; pdf_pages := Some [raw]; now := stamp;
     encode_raises := false; save_failure := None; firestore_raises := true;
     groq_reply := Some "ok" |}.

(** What [remove_document(0)] leaves of [two_docs] when the embedding call
    raises: one document, one chunk, two vectors. *)
Definition stale_store : Outcome :=
  after two_docs (encode_down "" "2025-01-01 10:10:00") (Remove 0).

(** An index file next to an unreadable metadata file. *)
Definition half_written : Disk :=
  {| index_file := Stored ["alpha"]; docs_file := Corrupt |}.

Definition faculty : Session :=
  {| user_id := Some "uid-7"; user_type := Some "faculty" |}.

Definition student : Session :=
  {| user_id := Some "uid-9"; user_type := Some "student" |}.

(** An upload that [save_file] stores under the notes of a department. *)
Definition sample_upload (name raw : string) : Upload :=
  {| upload_filename := name;
     saved := Saved ("uploads/notes/general/20250101_120000_" ++ name)%string;
     world := calm raw "2025-01-01 12:00:00" |}.

Definition sample_batch : list Upload :=
  [sample_upload "a.txt" "alpha"; sample_upload "b.docx" "beta";
   sample_upload "c.exe" "gamma"].

Definition sample_request : UploadRequest :=
  {| files := Some sample_batch; department := None; subject := Some "Math" |}.

End Samples.

(** ** Facts about the Python primitives *)

Module PyFacts.
Import Py.

Lemma len_nonneg (s : string) : 0 <= len s.
Proof. unfold len. lia. Qed.

Lemma truthy_len (s : string) : truthy s = true <-> 0 < len s.
Proof.
  unfold len. destruct s; simpl String.length; simpl truthy; split; intros H;
    solve [lia | discriminate | reflexivity].
Qed.

Lemma truthy_not_empty (s : string) : truthy s = true <-> s <> "".
Proof.
  destruct s; simpl; split; intros H; try discriminate; try reflexivity.
  now elim H.
Qed.

Lemma substring_length_le (s : string) :
  forall n m, (String.length (substring n m s) <= m)%nat.
Proof.
  induction s as [|a s IH]; intros n m.
  - destruct n, m; simpl; lia.
  - destruct n as [|n].
    + destruct m as [|m]; simpl; [lia|]. specialize (IH 0%nat m). lia.
    + simpl. apply IH.
Qed.

Lemma clamp_diff (n a b : Z) : 0 <= n -> a <= b -> clamp n b - clamp n a <= b - a.
Proof.
  intros Hn Hab. unfold clamp.
  destruct (Z.ltb_spec a 0), (Z.ltb_spec b 0); lia.
Qed.

(** A window of [size] characters holds at most [size] characters, also
    when its start is negative. *)
Lemma slice_len_le (s : string) (a size : Z) :
  0 <= size -> len (slice s a (a + size)) <= size.
Proof.
  intros Hs. unfold slice.
  pose proof (clamp_diff (len s) a (a + size) (len_nonneg s)) as Hd.
  destruct (Z.ltb_spec (clamp (len s) a) (clamp (len s) (a + size))) as [Hlt|Hge].
  - unfold len at 1.
    pose proof (substring_length_le s (Z.to_nat (clamp (len s) a))
                  (Z.to_nat (clamp (len s) (a + size) - clamp (len s) a))).
    lia.
  - unfold len; simpl; lia.
Qed.

Lemma rfind_aux_bounds (c : ascii) (s : string) :
  forall i acc, acc < i -> Z.min acc i <= rfind_aux c s i acc < i + len s.
Proof.
  induction s as [|a s IH]; intros i acc Hacc; simpl.
  - unfold len; simpl; lia.
  - destruct (Ascii.eqb a c).
    + specialize (IH (i + 1) i). unfold len in *. simpl String.length. lia.
    + specialize (IH (i + 1) acc). unfold len in *. simpl String.length. lia.
Qed.

(** [rfind] answers -1 or a position inside the string. *)
Lemma rfind_bounds (c : ascii) (s : string) : -1 <= rfind c s < len s.
Proof.
  unfold rfind. pose proof (rfind_aux_bounds c s 0 (-1)). lia.
Qed.

End PyFacts.

(** ** Facts about the chunk loop *)

Module ChunkerFacts.
Import Py PyFacts Chunker.

(** One pass of the loop that does not leave it. *)
Lemma chunk_loop_step fuel text size overlap start chunks c e :
  (start <? len text) = true ->
  chunk_window text size start = (c, e) ->
  (e - overlap >=? len text) = false ->
  chunk_loop (S fuel) text size overlap start chunks
  = chunk_loop fuel text size overlap (e - overlap) (chunks ++ [strip c]).
Proof.
  intros Hlt Hw Hge. simpl. rewrite Hlt, Hw, Hge. reflexivity.
Qed.

(** The window ends either [size] characters after its start or right
    after a boundary that the guard found beyond [start + size // 2]. *)
Lemma chunk_window_end text size start :
  snd (chunk_window text size start) = start + size
  \/ snd (chunk_window text size start) >= start + (start + size / 2) + 2.
Proof.
  unfold chunk_window.
  destruct (start + size <? len text); [|now left].
  set (b := Z.max _ _).
  destruct (Z.gtb_spec b (start + size / 2)); simpl; [right; lia | now left].
Qed.

(** The window never ends beyond [start + size]. *)
Lemma chunk_window_end_le text size start :
  0 <= size -> snd (chunk_window text size start) <= start + size.
Proof.
  intros Hs. unfold chunk_window.
  destruct (start + size <? len text); [|simpl; lia].
  pose proof (rfind_bounds "." (slice text start (start + size))) as Hp.
  pose proof (rfind_bounds newline (slice text start (start + size))) as Hn.
  pose proof (slice_len_le text start size Hs) as Hl.
  set (b := Z.max _ _) in *.
  destruct (Z.gtb_spec b (start + size / 2)); simpl; lia.
Qed.

(** Start offsets increase strictly when the overlap is below the size and
    not above [size // 2 + 1]. *)
Lemma chunk_window_progress text size overlap start :
  0 <= start -> overlap < size -> overlap <= size / 2 + 1 ->
  start < snd (chunk_window text size start) - overlap.
Proof.
  intros H0 H1 H2. destruct (chunk_window_end text size start); lia.
Qed.

(** With strictly increasing offsets the loop ends within
    [len(text) - start] passes. *)
Lemma chunk_loop_total text size overlap :
  overlap < size -> overlap <= size / 2 + 1 ->
  forall fuel start chunks,
    0 <= start ->
    1 + Z.max 0 (len text - start) <= Z.of_nat fuel ->
    exists r, chunk_loop fuel text size overlap start chunks = Some r.
Proof.
  intros H1 H2. induction fuel as [|fuel IH]; intros start chunks H0 Hf.
  - lia.
  - simpl. destruct (Z.ltb_spec start (len text)) as [Hlt|Hge]; [|eauto].
    pose proof (chunk_window_progress text size overlap start H0 H1 H2) as Hp.
    destruct (chunk_window text size start) as [c e]. simpl in Hp.
    destruct (Z.geb_spec (e - overlap) (len text)); [eauto|].
    apply IH; lia.
Qed.

(** More fuel does not change a result. *)
Lemma chunk_loop_fuel_mono text size overlap :
  forall fuel start chunks r,
    chunk_loop fuel text size overlap start chunks = Some r ->
    forall k, chunk_loop (fuel + k) text size overlap start chunks = Some r.
Proof.
  induction fuel as [|fuel IH]; intros start chunks r H k; [discriminate|].
  simpl in *. destruct (start <? len text); [|assumption].
  destruct (chunk_window text size start) as [c e].
  destruct (e - overlap >=? len text); [assumption|]. now apply IH.
Qed.

(** Whatever is returned went through the final filter. *)
Lemma chunk_text_truthy fuel text size overlap chunks :
  _chunk_text fuel text size overlap = Some chunks ->
  Forall (fun c => truthy c = true) chunks.
Proof.
  unfold _chunk_text. destruct (truthy text).
  - destruct (chunk_loop fuel text size overlap 0 []) as [l|]; [|discriminate].
    intros [= <-]. apply Forall_forall. intros c Hc.
    apply filter_In in Hc. tauto.
  - intros [= <-]. constructor.
Qed.

Lemma chunk_text_total text size overlap :
  overlap < size -> overlap <= size / 2 + 1 ->
  exists chunks, _chunk_text (default_fuel text) text size overlap = Some chunks.
Proof.
  intros H1 H2. unfold _chunk_text.
  destruct (truthy text) eqn:Ht; [|eauto].
  destruct (chunk_loop_total text size overlap H1 H2 (default_fuel text) 0 [])
    as [r Hr]; [lia | unfold default_fuel, len; lia |].
  rewrite Hr. eauto.
Qed.

(** The call with the default parameters always returns. *)
Lemma chunk_default_runs text :
  _chunk_text (default_fuel text) text 1000 200 = Some (chunk_default text).
Proof.
  unfold chunk_default.
  destruct (chunk_text_total text 1000 200) as [r Hr];
    [lia | now vm_compute |].
  now rewrite Hr.
Qed.

Lemma chunk_default_truthy text :
  Forall (fun c => truthy c = true) (chunk_default text).
Proof.
  apply (chunk_text_truthy (default_fuel text) text 1000 200).
  apply chunk_default_runs.
Qed.

(** When the overlap is not below the size, offsets never increase: from
    a start at or below 0 the loop never leaves a non-empty text. *)
Lemma chunk_loop_stuck text size overlap :
  truthy text = true -> 0 <= size -> size <= overlap ->
  forall fuel start chunks,
    start <= 0 -> chunk_loop fuel text size overlap start chunks = None.
Proof.
  intros Ht Hs Ho. apply truthy_len in Ht.
  induction fuel as [|fuel IH]; intros start chunks H0; [reflexivity|].
  simpl. destruct (Z.ltb_spec start (len text)); [|lia].
  pose proof (chunk_window_end_le text size start Hs) as He.
  destruct (chunk_window text size start) as [c e]. simpl in He.
  destruct (Z.geb_spec (e - overlap) (len text)); [lia|].
  apply IH. lia.
Qed.

End ChunkerFacts.

(** ** Facts about the catalog and the vector store *)

Module RagFacts.
Import Py PyFacts Chunker ChunkerFacts Rag.

Section Catalog.
Context `{EP : EmbeddingProvider} `{VI : VectorIndex vec}.

(** Alignment says that the store is the image of the chunk list. *)
Lemma aligned_map (s : RAGSystem) :
  aligned s <-> vector_store s = map (fun c => embed (text c)) (document_chunks s).
Proof.
  unfold aligned. split.
  - intros [Hlen Hnth]. apply nth_error_ext. intros n.
    rewrite nth_error_map.
    destruct (nth_error (document_chunks s) n) as [c|] eqn:Hc; simpl.
    + now apply Hnth.
    + apply nth_error_None in Hc. apply nth_error_None. lia.
  - intros ->. split.
    + now rewrite length_map.
    + intros i c Hc. rewrite nth_error_map, Hc. reflexivity.
Qed.

Lemma encode_texts (chunks : list Chunk) :
  encode (map text chunks) = map (fun c => embed (text c)) chunks.
Proof. unfold encode. now rewrite map_map. Qed.

(** An ingestion keeps the alignment whatever it returns. *)
Lemma process_document_aligned env path s disk r s' disk' :
  aligned s ->
  _process_document env path s disk = (r, s', disk') ->
  aligned s'.
Proof.
  intros Ha. unfold _process_document.
  destruct (if endswith (lower path) ".pdf" then _ else _) as [body|];
    [|now intros [= <- <- <-]].
  destruct (truthy body); [|now intros [= <- <- <-]].
  destruct (chunk_default body) as [|c0 cs]; [now intros [= <- <- <-]|].
  destruct (encode_raises env); [now intros [= <- <- <-]|].
  intros [= <- <- <-]. apply aligned_map in Ha. apply aligned_map. simpl.
  rewrite Ha, encode_texts, map_app. reflexivity.
Qed.

(** A removal that returns [True] rebuilt the store from the surviving
    chunks. *)
Lemma remove_document_aligned env doc s disk s' disk' :
  aligned s ->
  remove_document env doc s disk = (true, s', disk') ->
  aligned s'.
Proof.
  intros Ha. unfold remove_document.
  destruct (doc >=? llen (documents s)); [discriminate|].
  destruct (pop (documents s) doc) as [[d docs']|]; [|discriminate].
  destruct (filter _ (document_chunks s)) as [|c cs] eqn:Hf.
  - intros [= _ <- _]. apply aligned_map. reflexivity.
  - destruct (encode_raises env); [discriminate|].
    intros [= _ <- _]. apply aligned_map. exact (encode_texts (c :: cs)).
Qed.

Lemma empty_aligned : aligned (_load_or_create_vector_store empty_disk).
Proof. apply aligned_map. reflexivity. Qed.

(** An ingestion during which [encode] raises returns [False] and changes
    nothing. *)
Lemma process_document_encode_failure env path s disk :
  encode_raises env = true ->
  _process_document env path s disk = (false, s, disk).
Proof.
  intros He. unfold _process_document.
  destruct (if endswith (lower path) ".pdf" then _ else _) as [body|];
    [|reflexivity].
  destruct (truthy body); [|reflexivity].
  destruct (chunk_default body); [reflexivity|].
  now rewrite He.
Qed.

(** Whatever is stored by a save that did not raise is what the next load
    restores. *)
Lemma load_after_save env s disk :
  save_failure env = None ->
  _load_or_create_vector_store (_save_vector_store env s disk)
  = {| documents := map json_document (documents s);
       document_chunks := document_chunks s;
       vector_store := vector_store s |}.
Proof.
  intros Hs. unfold _save_vector_store. rewrite Hs. reflexivity.
Qed.

Lemma json_document_idem (d : Document) :
  json_document (json_document d) = json_document d.
Proof. destruct d as [i f p [r|r] n]; reflexivity. Qed.

Lemma json_document_string (d : Document) :
  (exists r, upload_date d = DateStr r) -> json_document d = d.
Proof. destruct d as [i f p [r|r] n]; intros [r' H]; simpl in *; now try discriminate. Qed.

End Catalog.
End RagFacts.

(** ** Facts about retrieval and removal by a negative position *)

Module QueryFacts.
Import Py PyFacts Chunker Rag.

Section Retrieval.
Context `{EP : EmbeddingProvider} `{VI : VectorIndex vec}.

Lemma rank_length (q : vec) (vs : list vec) :
  List.length (rank q vs) = List.length vs.
Proof.
  rewrite (Permutation_length (rank_perm q vs)). apply length_seq.
Qed.

Lemma rank_in_range (q : vec) (vs : list vec) (i : nat) :
  In i (rank q vs) -> (i < List.length vs)%nat.
Proof.
  intros Hi. apply (Permutation_in _ (rank_perm q vs)) in Hi.
  apply in_seq in Hi. lia.
Qed.

Lemma collect_hits_app chunks l1 l2 h1 h2 :
  collect_hits chunks l1 = Some h1 ->
  collect_hits chunks l2 = Some h2 ->
  collect_hits chunks (l1 ++ l2) = Some (h1 ++ h2).
Proof.
  revert h1. induction l1 as [|[sc idx] l1 IH]; intros h1 H1 H2; simpl in *.
  - injection H1 as <-. assumption.
  - destruct (idx <? llen chunks); [|now apply IH].
    destruct (index chunks idx) as [c|]; [|discriminate].
    destruct (collect_hits chunks l1) as [h|]; [|discriminate].
    injection H1 as <-. now rewrite (IH h eq_refl H2).
Qed.

(** Positions inside the chunk list each give one hit, in order. *)
Lemma collect_hits_found chunks (f : nat -> score) (found : list nat) :
  (forall i, In i found -> (i < List.length chunks)%nat) ->
  exists hits,
    collect_hits chunks (map (fun i => (f i, Z.of_nat i)) found) = Some hits
    /\ Forall2 (fun i h => nth_error chunks i = Some (hit_chunk h)) found hits.
Proof.
  induction found as [|i found IH]; intros Hin; simpl.
  - exists []. split; [reflexivity | constructor].
  - destruct IH as [hits [Hc Hf]]; [intros j Hj; apply Hin; now right|].
    assert (Hi : (i < List.length chunks)%nat) by (apply Hin; now left).
    destruct (nth_error chunks i) as [c|] eqn:Hn;
      [|apply nth_error_None in Hn; lia].
    unfold llen, index.
    destruct (Z.ltb_spec (Z.of_nat i) (Z.of_nat (List.length chunks))); [|lia].
    destruct (Z.leb_spec 0 (Z.of_nat i)); [|lia]. simpl andb.
    rewrite Nat2Z.id, Hn. fold (@llen Chunk chunks). rewrite Hc.
    eexists. split; [reflexivity|]. constructor; [exact Hn | exact Hf].
Qed.

(** The label -1 passes the bound check and indexes the last chunk. *)
Lemma collect_hits_padding chunks c (m : nat) :
  nth_error chunks (List.length chunks - 1) = Some c ->
  collect_hits chunks (repeat (pad_score, -1) m)
  = Some (repeat {| hit_chunk := c; similarity_score := pad_score |} m).
Proof.
  intros Hc.
  assert (Hn : (0 < List.length chunks)%nat).
  { apply Nat.nle_gt. intros Hle.
    assert (nth_error chunks (List.length chunks - 1) = None) as Hnone
        by (apply nth_error_None; lia).
    congruence. }
  induction m as [|m IH]; simpl; [reflexivity|].
  unfold llen, index.
  destruct (Z.ltb_spec (-1) (Z.of_nat (List.length chunks))); [|lia].
  simpl andb.
  destruct (Z.leb_spec (- Z.of_nat (List.length chunks)) (-1)); [|lia].
  simpl andb.
  replace (Z.to_nat (-1 + Z.of_nat (List.length chunks)))
    with (List.length chunks - 1)%nat by lia.
  rewrite Hc. fold (@llen Chunk chunks). now rewrite IH.
Qed.

Lemma pop_negative {A} (l : list A) (i : Z) :
  i < 0 -> - llen l <= i ->
  exists x,
    nth_error l (Z.to_nat (llen l + i)) = Some x
    /\ pop l i = Some (x, firstn (Z.to_nat (llen l + i)) l
                          ++ skipn (S (Z.to_nat (llen l + i))) l).
Proof.
  intros Hneg Hlow. unfold pop, llen in *.
  destruct (Z.ltb_spec i 0); [|lia].
  destruct (Z.leb_spec 0 (i + Z.of_nat (List.length l))); [|lia].
  destruct (Z.ltb_spec (i + Z.of_nat (List.length l)) (Z.of_nat (List.length l)));
    [|lia].
  simpl andb. rewrite (Z.add_comm (Z.of_nat _) i).
  destruct (nth_error l (Z.to_nat (i + Z.of_nat (List.length l)))) as [x|] eqn:Hx.
  - exists x. split; reflexivity.
  - apply nth_error_None in Hx. lia.
Qed.

Lemma pop_below {A} (l : list A) (i : Z) :
  i < - llen l -> pop l i = None.
Proof.
  intros Hlow. unfold pop, llen in *.
  destruct (Z.ltb_spec i 0); [|lia].
  destruct (Z.leb_spec 0 (i + Z.of_nat (List.length l))); [lia|].
  reflexivity.
Qed.

Lemma firstn_skipn_last {A} (l : list A) :
  (0 < List.length l)%nat ->
  firstn (pred (List.length l)) l ++ skipn (S (pred (List.length l))) l
  = removelast l.
Proof.
  intros Hl. rewrite skipn_all2 by lia. rewrite app_nil_r.
  symmetry. apply removelast_firstn_len.
Qed.

(** A removal during which nothing fails, once [pop] has found its
    document. *)
Lemma remove_document_popped env doc s disk d docs' :
  doc < llen (documents s) ->
  pop (documents s) doc = Some (d, docs') ->
  encode_raises env = false ->
  firestore_raises env = false ->
  exists s' disk',
    remove_document env doc s disk = (true, s', disk')
    /\ documents s' = docs'
    /\ document_chunks s'
       = filter (fun c => negb (doc_id c =? doc)) (document_chunks s).
Proof.
  intros Hlt Hp He Hf. unfold remove_document.
  destruct (Z.geb_spec doc (llen (documents s))); [lia|].
  rewrite Hp, He, Hf.
  destruct (filter _ (document_chunks s)) as [|c cs];
    do 2 eexists; (split; [reflexivity|]); split; reflexivity.
Qed.

End Retrieval.
End QueryFacts.

(** ** Properties of the chunker *)

Module ChunkerProperties.
Import Py PyFacts Chunker ChunkerFacts.

Lemma chunk_text_fuel_mono fuel text size overlap chunks :
  _chunk_text fuel text size overlap = Some chunks ->
  forall k, _chunk_text (fuel + k) text size overlap = Some chunks.
Proof.
  unfold _chunk_text. destruct (truthy text); [|trivial].
  destruct (chunk_loop fuel text size overlap 0 []) as [r|] eqn:Hr; [|discriminate].
  intros H k. now rewrite (chunk_loop_fuel_mono _ _ _ _ _ _ _ Hr k).
Qed.

(** At offset 0 the guard of the code and the midpoint rule coincide. *)
Lemma chunk_window_first text size :
  chunk_window text size 0 = chunk_window_spec text size 0.
Proof. reflexivity. Qed.

(** A window that starts at or after [size - size // 2 - 1] is never
    truncated by the code, wherever its last boundary lies. *)
Lemma chunk_window_late text size start :
  0 <= size -> size - size / 2 - 1 <= start ->
  chunk_window text size start = (slice text start (start + size), start + size).
Proof.
  intros Hs Hstart. unfold chunk_window.
  destruct (start + size <? len text); [|reflexivity].
  pose proof (rfind_bounds "." (slice text start (start + size))) as Hp.
  pose proof (rfind_bounds newline (slice text start (start + size))) as Hn.
  pose proof (slice_len_le text start size Hs) as Hl.
  set (b := Z.max _ _) in *.
  destruct (Z.gtb_spec b (start + size / 2)); [lia | reflexivity].
Qed.

(** With [chunk_size = 10] and [overlap = 9] the start offset goes
    0, -2, -1, 0, ... *)
Lemma looping_text_cycle :
  forall fuel chunks,
    chunk_loop fuel looping_text 10 9 0 chunks = None
    /\ chunk_loop fuel looping_text 10 9 (-2) chunks = None
    /\ chunk_loop fuel looping_text 10 9 (-1) chunks = None.
Proof.
  induction fuel as [|fuel IH]; intros chunks; [repeat split; reflexivity|].
  repeat split.
  - rewrite (chunk_loop_step fuel looping_text 10 9 0 chunks "aaaaaa." 7);
      try reflexivity.
    apply (IH (chunks ++ [strip "aaaaaa."])).
  - rewrite (chunk_loop_step fuel looping_text 10 9 (-2) chunks "" 8);
      try reflexivity.
    apply (IH (chunks ++ [strip ""])).
  - rewrite (chunk_loop_step fuel looping_text 10 9 (-1) chunks "" 9);
      try reflexivity.
    apply (IH (chunks ++ [strip ""])).
Qed.

(** C4 (evaluation of the code where the claim fails).  The claim promises
    that chunking ends for every text whenever [0 < overlap < size].  On the
    15-character text ["aaaaaa.aaaaaaaa"] with [chunk_size = 10] and
    [overlap = 9] the first window is cut after the full stop at position 6,
    so [end = 7] and the next start is [7 - 9 = -2]; the starts then run
    -2, -1, 0 and the loop never ends: no amount of fuel gives a result. *)
Theorem chunk_text_diverges_overlap_9_of_10 :
  0 < 9 < 10
  /\ chunk_window looping_text 10 0 = ("aaaaaa.", 7)
  /\ forall fuel, _chunk_text fuel looping_text 10 9 = None.
Proof.
  split; [lia|]. split; [reflexivity|].
  intros fuel. unfold _chunk_text. simpl truthy.
  destruct (looping_text_cycle fuel []) as [H _]. now rewrite H.
Qed.

(** C5 (evaluation of the code where the claim fails).  With
    [chunk_size = 10] and [overlap = 2] the second window of the text starts
    at offset 8 and ends at 18, before the end of the text; its last full
    stop is at position 6 of the window, past the midpoint 5.  The midpoint
    rule truncates the window to ["aabbbb."]; the code compares the position
    with [start + chunk_size // 2 = 13] and emits the whole window. *)
Theorem chunk_window_ignores_boundary_after_first :
  rfind "." (slice late_stop_text 8 18) = 6
  /\ chunk_window_spec late_stop_text 10 8 = ("aabbbb.", 15)
  /\ chunk_window late_stop_text 10 8 = ("aabbbb.ccc", 18)
  /\ _chunk_text 10 late_stop_text 10 2
     = Some ["aaaaaaaaaa"; "aabbbb.ccc"; "cccccccccc"; "cccccc"].
Proof. repeat split; reflexivity. Qed.

(** C6 (counterexample).  Nothing rejects or clamps [overlap >= size]: on
    ["abc"] with [chunk_size = 2] and [overlap = 2] the call never returns. *)
Lemma chunk_text_overlap_equal_size_diverges :
  ~ exists fuel chunks, _chunk_text fuel "abc" 2 2 = Some chunks.
Proof.
  intros [fuel [chunks H]]. unfold _chunk_text in H. simpl truthy in H.
  rewrite (chunk_loop_stuck "abc" 2 2) in H; [discriminate | reflexivity | lia..].
Qed.

(** C6 (amended).  The chunker checks nothing about its parameters; what
    makes the call return is the configuration: for every text, whenever
    [overlap < size] and [overlap <= size // 2 + 1] (as with the defaults
    1000 and 200, the only configuration the system uses) the call returns
    within [len(text) + 1] passes, more fuel gives the same result, and
    every returned chunk is non-empty. *)
Theorem chunk_text_terminates text size overlap :
  overlap < size -> overlap <= size / 2 + 1 ->
  exists chunks,
    _chunk_text (default_fuel text) text size overlap = Some chunks
    /\ (forall k, _chunk_text (default_fuel text + k) text size overlap = Some chunks)
    /\ Forall (fun c => c <> "") chunks.
Proof.
  intros H1 H2. destruct (chunk_text_total text size overlap H1 H2) as [chunks Hc].
  exists chunks. split; [exact Hc|]. split.
  - now apply chunk_text_fuel_mono.
  - apply chunk_text_truthy in Hc. eapply Forall_impl; [|exact Hc].
    intros c. apply truthy_not_empty.
Qed.

Lemma chunk_text_terminates_witness :
  (200 < 1000 /\ 200 <= 1000 / 2 + 1)
  /\ exists chunks,
      _chunk_text (default_fuel "The sky is blue. Grass is green.")
                  "The sky is blue. Grass is green." 1000 200 = Some chunks
      /\ (forall k, _chunk_text (default_fuel "The sky is blue. Grass is green." + k)
                                "The sky is blue. Grass is green." 1000 200
                    = Some chunks)
      /\ Forall (fun c => c <> "") chunks.
Proof.
  split.
  - split; [reflexivity | discriminate].
  - apply (chunk_text_terminates "The sky is blue. Grass is green." 1000 200).
    + reflexivity.
    + discriminate.
Defined.

End ChunkerProperties.

(** ** Properties of the catalog, the store and the query path *)

Module RagProperties.
Import Py PyFacts Chunker ChunkerFacts Rag RagFacts QueryFacts.

Section General.
Context `{EP : EmbeddingProvider} `{VI : VectorIndex vec}.

(** C1.  Invariant I1: in every state reached from an empty system through
    ingest and remove calls that returned [True], the chunk list and the
    vector store have the same length and the vector at each position is the
    embedding of the text of the chunk at that position. *)
Theorem positional_alignment s disk :
  reachable_ok s disk -> aligned s.
Proof.
  induction 1 as [|s disk env op s' disk' Hr IH Hstep].
  - apply empty_aligned.
  - destruct op as [path|doc]; simpl in Hstep.
    + exact (process_document_aligned _ _ _ _ _ _ _ IH Hstep).
    + exact (remove_document_aligned _ _ _ _ _ _ IH Hstep).
Qed.

(** C7 (amended).  A save that does not raise followed by a load on a fresh
    instance restores the same chunk list and the same vectors (so the same
    index size), and the document list with every [upload_date] replaced by
    its string, as [json.dump(..., default=str)] writes it; the document list
    is identical when every upload date was a string already, as in a state
    that was itself loaded. *)
Theorem save_load_round_trip env s disk :
  save_failure env = None ->
  let s' := _load_or_create_vector_store (_save_vector_store env s disk) in
  document_chunks s' = document_chunks s
  /\ vector_store s' = vector_store s
  /\ List.length (vector_store s') = List.length (vector_store s)
  /\ documents s' = map json_document (documents s)
  /\ ((forall d, In d (documents s) -> exists r, upload_date d = DateStr r) ->
      documents s' = documents s).
Proof.
  intros Hs s'. subst s'. rewrite (load_after_save env s disk Hs). simpl.
  repeat split; try reflexivity.
  intros Hstr. rewrite <- (map_id (documents s)) at 2.
  apply map_ext_in. intros d Hd. apply json_document_string. now apply Hstr.
Qed.

(** C8.  A non-blank question asked of a state without chunks gets the fixed
    no-information reply, and no call leaves the process: in particular the
    generative model is not invoked. *)
Theorem empty_index_query env q s :
  truthy (strip q) = true ->
  document_chunks s = [] ->
  query env q s = (no_information_reply, [])
  /\ forall prompt, ~ In (CallGroq prompt) (snd (query env q s)).
Proof.
  intros Hq Hc.
  assert (H : query env q s = (no_information_reply, [])).
  { unfold query, _retrieve_relevant_chunks. now rewrite Hq, Hc. }
  split; [exact H|]. intros prompt. rewrite H. simpl. tauto.
Qed.

(** C9 (amended).  The argument of [remove_document] is checked from above
    only.  When nothing outside fails, a negative [doc_id] not below
    [-len(documents)] passes the check, pops the document at position
    [len(documents) + doc_id] and returns [True] ([-1] removes the last
    document of the list); a [doc_id] below [-len(documents)] makes [pop]
    raise, and the call returns [False] with the state as it was. *)
Theorem remove_negative_position env doc s disk :
  doc < 0 ->
  encode_raises env = false ->
  firestore_raises env = false ->
  let r := remove_document env doc s disk in
  let k := Z.to_nat (llen (documents s) + doc) in
  (- llen (documents s) <= doc ->
     (exists d, nth_error (documents s) k = Some d)
     /\ fst (fst r) = true
     /\ documents (snd (fst r)) = firstn k (documents s) ++ skipn (S k) (documents s)
     /\ (doc = -1 -> documents (snd (fst r)) = removelast (documents s)))
  /\ (doc < - llen (documents s) -> r = (false, s, disk)).
Proof.
  intros Hneg He Hf r k. split.
  - intros Hlow.
    destruct (pop_negative (documents s) doc Hneg Hlow) as [d [Hd Hp]].
    fold k in Hd, Hp.
    assert (Hlt : doc < llen (documents s)) by (unfold llen; lia).
    destruct (remove_document_popped env doc s disk d _ Hlt Hp He Hf)
      as [s' [disk' [Hr [Hdocs _]]]].
    subst r. rewrite Hr. simpl. split; [eauto|]. split; [reflexivity|].
    split; [exact Hdocs|].
    intros ->. rewrite Hdocs. subst k. unfold llen in *.
    replace (Z.to_nat (Z.of_nat (List.length (documents s)) + -1))
      with (pred (List.length (documents s))) by lia.
    apply firstn_skipn_last. lia.
  - intros Hlow. subst r. unfold remove_document.
    assert (Hlen : 0 <= llen (documents s)) by (unfold llen; lia).
    destruct (Z.geb_spec doc (llen (documents s))); [lia|].
    now rewrite (pop_below (documents s) doc Hlow).
Qed.

(** C10.  The retrieval loop bounds a search label from above only.  In an
    aligned state with [n] chunks, [0 < n < 5], a search for 5 neighbours
    returns the [n] stored positions followed by [5 - n] labels -1; each of
    them indexes the last chunk, so the retrieved list has 5 entries: one hit
    per stored position, then the last chunk repeated [5 - n] times.  That
    list is the one put into the prompt, and the analytics record counts 5
    chunks. *)
Theorem retrieval_pads_with_last_chunk env q s :
  encode_raises env = false ->
  List.length (vector_store s) = List.length (document_chunks s) ->
  (0 < List.length (document_chunks s) < 5)%nat ->
  let n := List.length (document_chunks s) in
  let retrieved := fst (_retrieve_relevant_chunks env q 5 s) in
  exists c hits,
    nth_error (document_chunks s) (n - 1) = Some c
    /\ Forall2 (fun i h => nth_error (document_chunks s) i = Some (hit_chunk h))
               (rank (embed q) (vector_store s)) hits
    /\ retrieved
       = hits ++ repeat {| hit_chunk := c; similarity_score := pad_score |} (5 - n)
    /\ List.length retrieved = 5%nat
    /\ (truthy (strip q) = true ->
        In (CallGroq (prompt_of q retrieved)) (snd (query env q s))
        /\ In (CallLog q 5 (llen (documents s))) (snd (query env q s))).
Proof.
  intros He Hlen Hn n retrieved.
  destruct (nth_error (document_chunks s) (n - 1)) as [c|] eqn:Hc;
    [|apply nth_error_None in Hc; subst n; lia].
  set (vs := vector_store s) in *. set (qv := embed q).
  pose proof (rank_length qv vs) as Hrl.
  assert (Hfirst : firstn 5 (rank qv vs) = rank qv vs)
    by (apply firstn_all2; lia).
  destruct (collect_hits_found (document_chunks s)
              (fun i => match nth_error vs i with
                        | Some v => inner qv v
                        | None => pad_score
                        end) (rank qv vs)) as [hits [Hcol Hf2]].
  { intros i Hi. apply rank_in_range in Hi. lia. }
  pose proof (collect_hits_padding (document_chunks s) c (5 - n) Hc) as Hpad.
  assert (Hret : _retrieve_relevant_chunks env q 5 s
                 = (hits ++ repeat {| hit_chunk := c; similarity_score := pad_score |}
                                   (5 - n),
                    [CallEncode [q]; CallSearch 5])).
  { unfold _retrieve_relevant_chunks.
    destruct (document_chunks s) as [|c0 cs] eqn:Hcs; [simpl in Hn; lia|].
    rewrite He. unfold search. fold vs. fold qv. rewrite Hfirst, Hrl.
    replace (List.length vs) with n by (subst n; lia).
    now rewrite (collect_hits_app _ _ _ _ _ Hcol Hpad). }
  assert (Hhits : List.length hits = n).
  { rewrite <- (Forall2_length Hf2). lia. }
  assert (Hfive : List.length retrieved = 5%nat).
  { subst retrieved. rewrite Hret. cbn [fst].
    rewrite length_app, repeat_length. subst n. lia. }
  exists c, hits. split; [reflexivity|]. split; [exact Hf2|].
  split; [subst retrieved; now rewrite Hret|]. split; [exact Hfive|].
  intros Hq. unfold query. rewrite Hq.
  subst retrieved. rewrite Hret in *. cbn [fst] in *.
  destruct (hits ++ repeat _ (5 - n)) as [|h hs] eqn:Hl; [simpl in Hfive; lia|].
  unfold _generate_response. cbn [snd]. split.
  - apply in_or_app. right. now left.
  - apply in_or_app. right. right. left.
    unfold llen. rewrite Hfive. reflexivity.
Qed.

End General.
End RagProperties.

(** ** The properties on concrete runs *)

Module RagScenarios.
Import Py Chunker Rag Rag.Toy RagProperties.

Lemma one_doc_reachable : reachable_ok (sys_of one_doc) (disk_of one_doc).
Proof.
  eapply (reach_step _ _ (calm "alpha" "2025-01-01 10:00:00") (Ingest "notes/a.txt"));
    [apply reach_init | reflexivity].
Qed.

Lemma two_docs_reachable : reachable_ok (sys_of two_docs) (disk_of two_docs).
Proof.
  eapply (reach_step _ _ (calm "beta gamma" "2025-01-01 10:05:00")
            (Ingest "notes/b.txt"));
    [apply one_doc_reachable | reflexivity].
Qed.

Lemma removed_first_reachable :
  reachable_ok (sys_of removed_first) (disk_of removed_first).
Proof.
  eapply (reach_step _ _ (calm "" "2025-01-01 10:10:00") (Remove 0));
    [apply two_docs_reachable | reflexivity].
Qed.

Lemma reingested_reachable : reachable_ok (sys_of reingested) (disk_of reingested).
Proof.
  eapply (reach_step _ _ (calm "delta." "2025-01-01 10:15:00")
            (Ingest "notes/c.txt"));
    [apply removed_first_reachable | reflexivity].
Qed.

Lemma positional_alignment_witness :
  reachable_ok (sys_of reingested) (disk_of reingested)
  /\ aligned (sys_of reingested).
Proof.
  split.
  - apply reingested_reachable.
  - apply (positional_alignment (sys_of reingested) (disk_of reingested)).
    apply reingested_reachable.
Defined.

(** C2 (evaluation of the code where the claim fails).  Two documents of
    one chunk each are present and [remove_document(0)] is called while
    [encode] raises.  The call returns [False], but the document and its
    chunk are already gone from the lists, and the vector store still holds
    both vectors: the state is neither the old one nor aligned. *)
Theorem remove_document_not_atomic :
  let s := sys_of two_docs in
  let r := remove_document (encode_down "" "2025-01-01 10:10:00") 0 s
                           (disk_of two_docs) in
  ok_of r = false
  /\ List.length (documents s) = 2%nat
  /\ List.length (documents (sys_of r)) = 1%nat
  /\ List.length (document_chunks s) = 2%nat
  /\ List.length (document_chunks (sys_of r)) = 1%nat
  /\ vector_store (sys_of r) = vector_store s
  /\ List.length (vector_store (sys_of r)) = 2%nat
  /\ sys_of r <> s
  /\ ~ aligned (sys_of r).
Proof.
  cbv zeta. repeat split; try reflexivity.
  - intros H. apply (f_equal (fun x => List.length (documents x))) in H.
    vm_compute in H. discriminate.
  - intros [H _]. vm_compute in H. discriminate.
Qed.

(** C3 (evaluation of the code where the claim fails).  Ingest [a.txt] and
    [b.txt], remove document 0, ingest [c.txt]; every call returns [True].
    [b.txt] keeps id 1 and [c.txt] is given [len(documents) = 1] as well, so
    two chunks carry [doc_id = 1] while each of the two documents records
    [chunk_count = 1]. *)
Theorem chunk_count_disagrees_after_reingest :
  ok_of one_doc = true /\ ok_of two_docs = true
  /\ ok_of removed_first = true /\ ok_of reingested = true
  /\ counts_agree (sys_of removed_first) = true
  /\ map id (documents (sys_of reingested)) = [1; 1]
  /\ map chunk_count (documents (sys_of reingested)) = [1; 1]
  /\ map doc_id (document_chunks (sys_of reingested)) = [1; 1]
  /\ counts_agree (sys_of reingested) = false.
Proof. repeat split; reflexivity. Qed.

(** C7 (counterexample).  After one ingestion the document in memory carries
    a [datetime]; what a save and a load on a fresh instance give back
    carries a string, so the document lists differ. *)
Lemma save_load_changes_upload_date :
  reachable_ok (sys_of one_doc) (disk_of one_doc)
  /\ documents (_load_or_create_vector_store
                  (_save_vector_store (calm "" "") (sys_of one_doc) (disk_of one_doc)))
     <> documents (sys_of one_doc).
Proof.
  split; [apply one_doc_reachable|]. vm_compute. discriminate.
Qed.

Lemma save_load_round_trip_witness :
  save_failure (calm "" "") = None
  /\ document_chunks (_load_or_create_vector_store
                        (_save_vector_store (calm "" "") (sys_of two_docs)
                                            (disk_of two_docs)))
     = document_chunks (sys_of two_docs).
Proof.
  split; [reflexivity|].
  apply (save_load_round_trip (calm "" "") (sys_of two_docs) (disk_of two_docs)).
  reflexivity.
Defined.

Lemma empty_index_query_witness :
  truthy (strip "What color is the sky?") = true
  /\ document_chunks (sys_of fresh) = []
  /\ query (calm "" "") "What color is the sky?" (sys_of fresh)
     = (no_information_reply, []).
Proof.
  split; [reflexivity|]. split; [reflexivity|].
  apply (empty_index_query (calm "" "") "What color is the sky?" (sys_of fresh));
    reflexivity.
Defined.

(** C9 (counterexample).  One document is present and [remove_document(-2)]
    is called while nothing outside fails: the check is passed, [pop] raises,
    and the call returns [False] with nothing removed. *)
Lemma remove_below_range_returns_false :
  List.length (documents (sys_of one_doc)) = 1%nat
  /\ remove_document (calm "" "2025-01-01 10:10:00") (-2)
                     (sys_of one_doc) (disk_of one_doc)
     = (false, sys_of one_doc, disk_of one_doc).
Proof. split; reflexivity. Qed.

Lemma remove_negative_position_witness :
  (-1 < 0
   /\ encode_raises (calm "" "2025-01-01 10:10:00") = false
   /\ firestore_raises (calm "" "2025-01-01 10:10:00") = false
   /\ - llen (documents (sys_of two_docs)) <= -1)
  /\ documents (sys_of (remove_document (calm "" "2025-01-01 10:10:00") (-1)
                                        (sys_of two_docs) (disk_of two_docs)))
     = removelast (documents (sys_of two_docs)).
Proof.
  split.
  - repeat split; solve [reflexivity | vm_compute; discriminate].
  - pose proof (remove_negative_position (calm "" "2025-01-01 10:10:00") (-1)
                  (sys_of two_docs) (disk_of two_docs) eq_refl eq_refl eq_refl)
      as H.
    cbv zeta in H. destruct H as [Hin _].
    assert (Hlow : - llen (documents (sys_of two_docs)) <= -1)
      by (vm_compute; discriminate).
    destruct (Hin Hlow) as [_ [_ [_ Hlast]]].
    exact (Hlast eq_refl).
Defined.

Lemma retrieval_pads_with_last_chunk_witness :
  (encode_raises (calm "" "") = false
   /\ List.length (vector_store (sys_of two_docs))
      = List.length (document_chunks (sys_of two_docs))
   /\ (0 < List.length (document_chunks (sys_of two_docs)) < 5)%nat)
  /\ List.length (fst (_retrieve_relevant_chunks (calm "" "") "beta?" 5
                                                 (sys_of two_docs))) = 5%nat.
Proof.
  split.
  - split; [reflexivity|]. split; [reflexivity|].
    split; [apply le_S, le_n | apply le_S, le_S, le_n].
  - assert (Hn : (0 < List.length (document_chunks (sys_of two_docs)) < 5)%nat)
      by (split; [apply le_S, le_n | apply le_S, le_S, le_n]).
    pose proof (retrieval_pads_with_last_chunk (calm "" "") "beta?"
                  (sys_of two_docs) eq_refl eq_refl Hn) as H.
    cbv zeta in H. destruct H as [c [hits [_ [_ [_ [Hfive _]]]]]].
    exact Hfive.
Defined.

End RagScenarios.

(** ** More facts about strings *)

Module StringFacts.
Import Py PyFacts.

Lemma lstrip_length_le (s : string) :
  (String.length (lstrip s) <= String.length s)%nat.
Proof.
  induction s as [|a s IH]; simpl; [lia|].
  destruct (isspace a); simpl; lia.
Qed.

Lemma rstrip_length_le (s : string) :
  (String.length (rstrip s) <= String.length s)%nat.
Proof.
  induction s as [|a s IH]; simpl; [lia|].
  destruct (rstrip s); [destruct (isspace a)|]; simpl in *; lia.
Qed.

Lemma strip_len_le (s : string) : len (strip s) <= len s.
Proof.
  unfold len, strip.
  pose proof (rstrip_length_le (lstrip s)). pose proof (lstrip_length_le s). lia.
Qed.

Lemma lstrip_idem (s : string) : lstrip (lstrip s) = lstrip s.
Proof.
  induction s as [|a s IH]; simpl; [reflexivity|].
  destruct (isspace a) eqn:Ha; [exact IH|]. simpl. now rewrite Ha.
Qed.

Lemma rstrip_idem (s : string) : rstrip (rstrip s) = rstrip s.
Proof.
  induction s as [|a s IH]; simpl; [reflexivity|].
  destruct (rstrip s) as [|b r] eqn:Hr.
  - destruct (isspace a) eqn:Ha; simpl; [reflexivity|]. now rewrite Ha.
  - change (rstrip (String a (String b r)))
      with (match rstrip (String b r) with
            | EmptyString => if isspace a then EmptyString else String a EmptyString
            | String x y => String a (String x y)
            end).
    now rewrite IH.
Qed.

(** A string that does not start with white space still does not after
    [rstrip]. *)
Lemma lstrip_rstrip (s : string) : lstrip s = s -> lstrip (rstrip s) = rstrip s.
Proof.
  destruct s as [|a s]; [reflexivity|]. intros H.
  assert (Ha : isspace a = false).
  { simpl in H. destruct (isspace a); [|reflexivity].
    pose proof (lstrip_length_le s) as Hl. rewrite H in Hl. simpl in Hl. lia. }
  simpl rstrip. destruct (rstrip s); [rewrite Ha|]; simpl; now rewrite Ha.
Qed.

(** [strip] is idempotent: its result has no white space at either end. *)
Lemma strip_idem (s : string) : strip (strip s) = strip s.
Proof.
  unfold strip.
  rewrite (lstrip_rstrip (lstrip s) (lstrip_idem s)). apply rstrip_idem.
Qed.

Lemma lstrip_strip (s : string) : lstrip (strip s) = strip s.
Proof. unfold strip. apply lstrip_rstrip, lstrip_idem. Qed.

Lemma substring_full (s : string) : substring 0 (String.length s) s = s.
Proof. induction s as [|a s IH]; simpl; [reflexivity | now rewrite IH]. Qed.

(** [s[0:b]] is the whole string when [b] is at or beyond its end. *)
Lemma slice_whole (s : string) (b : Z) : len s <= b -> slice s 0 b = s.
Proof.
  intros Hb. unfold slice, clamp. pose proof (len_nonneg s) as Hn.
  destruct (Z.ltb_spec 0 0); [lia|]. destruct (Z.ltb_spec b 0); [lia|].
  rewrite (Z.min_l 0 (len s)) by lia. rewrite (Z.min_r b (len s)) by lia.
  destruct (Z.ltb_spec 0 (len s)) as [Hlt|Hge].
  - rewrite Z.sub_0_r. unfold len. rewrite Nat2Z.id. apply substring_full.
  - unfold len in *. destruct s; [reflexivity | simpl in Hge; lia].
Qed.

(** Beyond the end of the string the upper bound of a slice does not
    matter. *)
Lemma slice_to_end (s : string) (a b : Z) :
  len s <= b -> slice s a b = slice s a (len s).
Proof.
  intros Hb. unfold slice. pose proof (len_nonneg s) as Hn.
  replace (clamp (len s) b) with (clamp (len s) (len s)); [reflexivity|].
  unfold clamp. destruct (Z.ltb_spec (len s) 0), (Z.ltb_spec b 0); lia.
Qed.

(** A slice from 0 of at least one character keeps the first character. *)
Lemma slice_head (a : ascii) (s : string) (b : Z) :
  1 <= b -> exists t, slice (String a s) 0 b = String a t.
Proof.
  intros Hb. unfold slice, clamp.
  assert (Hn : 1 <= len (String a s)) by (unfold len; simpl String.length; lia).
  destruct (Z.ltb_spec 0 0); [lia|]. destruct (Z.ltb_spec b 0); [lia|].
  rewrite (Z.min_l 0 _) by lia.
  destruct (Z.ltb_spec 0 (Z.min b (len (String a s)))); [|lia].
  rewrite Z.sub_0_r.
  destruct (Z.to_nat (Z.min b (len (String a s)))) as [|k] eqn:Hk; [lia|].
  simpl. eauto.
Qed.

(** What starts with a character that is not white space is not blank. *)
Lemma strip_head (a : ascii) (s : string) :
  isspace a = false -> truthy (strip (String a s)) = true.
Proof.
  intros Ha. unfold strip. simpl lstrip. rewrite Ha. simpl.
  destruct (rstrip s); [now rewrite Ha | reflexivity].
Qed.

End StringFacts.

(** ** More properties of the chunker *)

Module ChunkerExtras.
Import Py PyFacts StringFacts Chunker ChunkerFacts.

(** The emitted window holds at most [chunk_size] characters. *)
Lemma chunk_window_len text size start :
  0 <= size -> len (fst (chunk_window text size start)) <= size.
Proof.
  intros Hs. unfold chunk_window.
  pose proof (slice_len_le text start size Hs) as Hl.
  destruct (start + size <? len text); [|exact Hl].
  pose proof (rfind_bounds "." (slice text start (start + size))) as Hp.
  pose proof (rfind_bounds newline (slice text start (start + size))) as Hn.
  set (b := Z.max _ _) in *.
  destruct (Z.gtb_spec b (start + size / 2)); [|exact Hl]. simpl.
  replace (start + b + 1) with (start + (b + 1)) by lia.
  pose proof (slice_len_le text start (b + 1)). lia.
Qed.

(** What holds of every stripped window holds of every element the loop
    appends. *)
Lemma chunk_loop_Forall (P : string -> Prop) text size overlap :
  (forall start, P (strip (fst (chunk_window text size start)))) ->
  forall fuel start chunks r,
    Forall P chunks ->
    chunk_loop fuel text size overlap start chunks = Some r ->
    Forall P r.
Proof.
  intros HP. induction fuel as [|fuel IH]; intros start chunks r Hc H;
    [discriminate|].
  simpl in H. destruct (start <? len text); [|now injection H as <-].
  specialize (HP start).
  destruct (chunk_window text size start) as [c e]. simpl in HP.
  assert (Hc' : Forall P (chunks ++ [strip c]))
    by (apply Forall_app; split; [assumption | now constructor]).
  destruct (e - overlap >=? len text); [now injection H as <-|].
  exact (IH _ _ _ Hc' H).
Qed.

Lemma chunk_loop_unfold fuel text size overlap start chunks :
  chunk_loop (S fuel) text size overlap start chunks
  = if start <? len text then
      let '(chunk, end_) := chunk_window text size start in
      if end_ - overlap >=? len text then Some (chunks ++ [strip chunk])
      else chunk_loop fuel text size overlap (end_ - overlap)
                      (chunks ++ [strip chunk])
    else Some chunks.
Proof. reflexivity. Qed.

(** The accumulator is a prefix of the result. *)
Lemma chunk_loop_prefix text size overlap :
  forall fuel start chunks r,
    chunk_loop fuel text size overlap start chunks = Some r ->
    exists rest, r = chunks ++ rest.
Proof.
  induction fuel as [|fuel IH]; intros start chunks r H; [discriminate|].
  simpl in H. destruct (start <? len text);
    [|injection H as <-; exists []; now rewrite app_nil_r].
  destruct (chunk_window text size start) as [c e].
  destruct (e - overlap >=? len text); [injection H as <-; eauto|].
  destruct (IH _ _ _ H) as [rest ->]. rewrite <- app_assoc. eauto.
Qed.

(** X1.  Whenever [_chunk_text] returns with a non-negative [chunk_size],
    every chunk is non-empty, holds at most [chunk_size] characters and has
    no white space at either end. *)
Theorem chunk_text_chunks_bounded fuel text size overlap chunks :
  0 <= size ->
  _chunk_text fuel text size overlap = Some chunks ->
  Forall (fun c => c <> "" /\ len c <= size /\ strip c = c) chunks.
Proof.
  intros Hs H.
  pose proof (chunk_text_truthy _ _ _ _ _ H) as Ht.
  unfold _chunk_text in H. destruct (truthy text); [|injection H as <-; constructor].
  destruct (chunk_loop fuel text size overlap 0 []) as [r|] eqn:Hr; [|discriminate].
  injection H as <-.
  assert (Hall : Forall (fun c => len c <= size /\ strip c = c) r).
  { refine (chunk_loop_Forall _ text size overlap _ fuel 0 [] r _ Hr);
      [|constructor].
    intros start. split; [|apply strip_idem].
    pose proof (strip_len_le (fst (chunk_window text size start))).
    pose proof (chunk_window_len text size start Hs). lia. }
  apply Forall_forall. intros c Hc.
  rewrite Forall_forall in Ht, Hall. split.
  - apply truthy_not_empty. now apply Ht.
  - apply Hall. apply filter_In in Hc. tauto.
Qed.

Lemma chunk_text_chunks_bounded_witness :
  0 <= 20
  /\ Forall (fun c => c <> "" /\ len c <= 20 /\ strip c = c)
            ["The sky is blue."; "blue. Grass is green"; "green."].
Proof.
  split; [discriminate|].
  apply (chunk_text_chunks_bounded 10 "The sky is blue. Grass is green." 20 5).
  - discriminate.
  - reflexivity.
Defined.

Lemma chunk_text_one_window fuel text size overlap :
  truthy text = true ->
  0 <= overlap ->
  len text <= size - overlap ->
  _chunk_text (S fuel) text size overlap = Some (filter truthy [strip text]).
Proof.
  intros Ht Ho Hl. unfold _chunk_text. rewrite Ht.
  apply truthy_len in Ht. simpl chunk_loop.
  destruct (Z.ltb_spec 0 (len text)); [|lia].
  unfold chunk_window. simpl (0 + size).
  destruct (Z.ltb_spec size (len text)); [lia|].
  rewrite slice_whole by lia.
  destruct (Z.geb_spec (size - overlap) (len text)); [reflexivity | lia].
Qed.

(** X2.  A non-empty text of at most [chunk_size - overlap] characters
    gives its stripped content as the only chunk (and no chunk when it is
    blank). *)
Theorem chunk_text_short fuel text size overlap :
  truthy text = true ->
  0 <= overlap ->
  len text <= size - overlap ->
  _chunk_text (S fuel) text size overlap = Some (filter truthy [strip text]).
Proof. apply chunk_text_one_window. Qed.

Lemma chunk_text_short_witness :
  (truthy "alpha" = true /\ 0 <= 200 /\ len "alpha" <= 1000 - 200)
  /\ _chunk_text 1 "alpha" 1000 200 = Some ["alpha"].
Proof.
  split.
  - split; [reflexivity|]. split; discriminate.
  - apply (chunk_text_short 0 "alpha" 1000 200); [reflexivity | discriminate..].
Defined.

(** X3.  A text that fits in one window but is longer than
    [chunk_size - overlap] is chunked twice: the whole text, then its tail
    from offset [chunk_size - overlap], which the first chunk already
    contains. *)
Theorem chunk_text_redundant_tail fuel text size overlap :
  0 <= overlap -> overlap < size ->
  size - overlap < len text -> len text <= size ->
  len text <= 2 * (size - overlap) ->
  _chunk_text (S (S fuel)) text size overlap
  = Some (filter truthy [strip text;
                         strip (slice text (size - overlap) (len text))]).
Proof.
  intros Ho Hos Hlo Hls Hl2. unfold _chunk_text.
  assert (Ht : truthy text = true) by (apply truthy_len; lia).
  rewrite Ht.
  rewrite (chunk_loop_step (S fuel) text size overlap 0 [] text size).
  - simpl chunk_loop.
    destruct (Z.ltb_spec (size - overlap) (len text)); [|lia].
    unfold chunk_window.
    destruct (Z.ltb_spec (size - overlap + size) (len text)); [lia|].
    rewrite (slice_to_end text (size - overlap) (size - overlap + size)) by lia.
    destruct (Z.geb_spec (size - overlap + size - overlap) (len text));
      [reflexivity | lia].
  - apply Z.ltb_lt. lia.
  - unfold chunk_window. simpl (0 + size).
    destruct (Z.ltb_spec size (len text)); [lia|]. now rewrite slice_whole by lia.
  - destruct (Z.geb_spec (size - overlap) (len text)); [lia | reflexivity].
Qed.

Lemma chunk_text_redundant_tail_witness :
  (0 <= 2 /\ 2 < 10 /\ 10 - 2 < len "abcdefghij" /\ len "abcdefghij" <= 10
   /\ len "abcdefghij" <= 2 * (10 - 2))
  /\ _chunk_text 2 "abcdefghij" 10 2 = Some ["abcdefghij"; "ij"].
Proof.
  split.
  - repeat split; solve [reflexivity | discriminate].
  - apply (chunk_text_redundant_tail 0 "abcdefghij" 10 2);
      solve [reflexivity | discriminate].
Defined.

End ChunkerExtras.

(** ** More properties of ingestion *)

Module IngestExtras.
Import Py PyFacts StringFacts Chunker ChunkerFacts ChunkerExtras Rag RagFacts Ingestion.

Section Ingest.
Context `{EP : EmbeddingProvider} `{VI : VectorIndex vec}.

Lemma enumerate_from_nth {A} (l : list A) :
  forall k i,
    nth_error (combine (map Z.of_nat (seq k (List.length l))) l) i
    = option_map (fun x => (Z.of_nat (k + i), x)) (nth_error l i).
Proof.
  induction l as [|x l IH]; intros k i; simpl.
  - now destruct i.
  - destruct i as [|i]; simpl.
    + now rewrite Nat.add_0_r.
    + rewrite IH. now rewrite Nat.add_succ_r.
Qed.

Lemma enumerate_nth {A} (l : list A) (i : nat) :
  nth_error (enumerate l) i = option_map (fun x => (Z.of_nat i, x)) (nth_error l i).
Proof. unfold enumerate. apply (enumerate_from_nth l 0 i). Qed.

Lemma enumerate_length {A} (l : list A) :
  List.length (enumerate l) = List.length l.
Proof.
  unfold enumerate. rewrite length_combine, length_map, length_seq. lia.
Qed.

(** The text extracted from a file has no white space at its start. *)
Lemma extract_pdf_lstrip env : lstrip (_extract_text_from_pdf env) = _extract_text_from_pdf env.
Proof.
  unfold _extract_text_from_pdf. destruct (pdf_pages env); [apply lstrip_strip | reflexivity].
Qed.

Lemma extract_txt_lstrip env : lstrip (_extract_text_from_txt env) = _extract_text_from_txt env.
Proof.
  unfold _extract_text_from_txt. destruct (file_text env); [apply lstrip_strip | reflexivity].
Qed.

(** A text that starts with a visible character gives at least one chunk:
    the first window keeps that character. *)
Lemma chunk_default_nonempty body :
  truthy body = true -> lstrip body = body -> chunk_default body <> [].
Proof.
  intros Ht Hl. pose proof (chunk_default_runs body) as Hrun.
  unfold _chunk_text in Hrun. rewrite Ht in Hrun.
  destruct (chunk_loop (default_fuel body) body 1000 200 0 []) as [r|] eqn:Hr;
    [|discriminate].
  injection Hrun as Hrun. rewrite <- Hrun.
  destruct body as [|a rest]; [discriminate|].
  assert (Ha : isspace a = false).
  { simpl in Hl. destruct (isspace a); [|reflexivity].
    pose proof (lstrip_length_le rest) as Hle. rewrite Hl in Hle. simpl in Hle. lia. }
  assert (Hlen : 0 < len (String a rest))
    by (unfold len; simpl String.length; lia).
  unfold default_fuel in Hr. rewrite chunk_loop_unfold in Hr.
  destruct (Z.ltb_spec 0 (len (String a rest))); [|lia].
  assert (Hw : exists t e, chunk_window (String a rest) 1000 0 = (String a t, e)).
  { unfold chunk_window. simpl (0 + 1000).
    destruct (1000 <? len (String a rest)).
    - set (b := Z.max _ _). clearbody b.
      destruct (Z.gtb_spec b (0 + 1000 / 2)) as [Hb|Hb];
        [change (0 + 1000 / 2) with 500 in Hb|].
      + destruct (slice_head a rest (0 + b + 1)) as [t Ht']; [lia|]. rewrite Ht'. eauto.
      + destruct (slice_head a rest 1000) as [t Ht']; [lia|]. rewrite Ht'. eauto.
    - destruct (slice_head a rest 1000) as [t Ht']; [lia|]. rewrite Ht'. eauto. }
  destruct Hw as [t [e Hw]]. rewrite Hw in Hr.
  assert (Hin : In (strip (String a t)) r).
  { destruct (e - 200 >=? len (String a rest)).
    - injection Hr as <-. now left.
    - destruct (chunk_loop_prefix _ _ _ _ _ _ _ Hr) as [more ->].
      apply in_or_app. left. now left. }
  intros Hnil.
  assert (Hf : In (strip (String a t)) (filter truthy r))
    by (apply filter_In; split; [exact Hin | now apply strip_head]).
  rewrite Hnil in Hf. exact Hf.
Qed.

Lemma extraction_lstrip env path body :
  extraction_of env path = Some body -> lstrip body = body.
Proof.
  unfold extraction_of.
  destruct (endswith (lower path) ".pdf"); [intros [= <-]; apply extract_pdf_lstrip|].
  destruct (endswith (lower path) ".txt"); [intros [= <-]; apply extract_txt_lstrip|].
  discriminate.
Qed.

(** The records [_process_document] builds for the chunks of a document. *)
Lemma chunk_records_nth (s : RAGSystem) (fname : string) (chunks : list string)
      (i : nat) (c : Chunk) :
  nth_error
    (map (fun '(i, chunk) =>
            {| doc_id := llen (documents s);
               chunk_id := llen (document_chunks s) + i;
               text := chunk;
               chunk_filename := fname;
               chunk_index := i |})
         (enumerate chunks)) i = Some c ->
  exists chunk,
    nth_error chunks i = Some chunk
    /\ c = {| doc_id := llen (documents s);
              chunk_id := llen (document_chunks s) + Z.of_nat i;
              text := chunk;
              chunk_filename := fname;
              chunk_index := Z.of_nat i |}.
Proof.
  rewrite nth_error_map, enumerate_nth.
  destruct (nth_error chunks i) as [chunk|]; [|discriminate].
  simpl. intros [= <-]. eauto.
Qed.

Lemma process_document_false env path s disk s' disk' :
  _process_document env path s disk = (false, s', disk') ->
  s' = s /\ disk' = disk.
Proof.
  unfold _process_document.
  destruct (if endswith (lower path) ".pdf" then _ else _) as [body|];
    [|now intros [= <- <-]].
  destruct (truthy body); [|now intros [= <- <-]].
  destruct (chunk_default body); [now intros [= <- <-]|].
  destruct (encode_raises env); [now intros [= <- <-] | discriminate].
Qed.

(** X4.  An ingestion that returns [False] has changed neither the
    instance nor the disk, whatever made it fail. *)
Theorem process_document_failure_unchanged env path s disk s' disk' :
  _process_document env path s disk = (false, s', disk') ->
  s' = s /\ disk' = disk.
Proof. apply process_document_false. Qed.

(** X5.  An ingestion returns [True] exactly when the file type is
    supported, the extracted text is not empty and the embedding call does
    not raise: a stripped non-empty text always gives a chunk, and neither a
    failed save nor a failed Firestore write changes the result. *)
Theorem process_document_succeeds_iff env path s disk :
  fst (fst (_process_document env path s disk)) = true
  <-> (exists body, extraction_of env path = Some body /\ truthy body = true)
      /\ encode_raises env = false.
Proof.
  unfold _process_document.
  pose proof (extraction_lstrip env path) as Hstrip. unfold extraction_of in *.
  destruct (if endswith (lower path) ".pdf" then _ else _) as [body|].
  - destruct (truthy body) eqn:Ht.
    + pose proof (chunk_default_nonempty body Ht (Hstrip body eq_refl)) as Hne.
      destruct (chunk_default body) as [|c0 cs]; [now elim Hne|].
      destruct (encode_raises env); simpl; split.
      * discriminate.
      * intros [_ H]. discriminate.
      * intros _. split; [eauto | reflexivity].
      * reflexivity.
    + simpl. split; [discriminate|]. intros [[b [[= <-] Hb]] _]. congruence.
  - simpl. split; [discriminate|]. intros [[b [H _]] _]. discriminate.
Qed.

(** The shape of the state after an ingestion that returned [True]. *)
Lemma process_document_shape env path s disk s' disk' :
  _process_document env path s disk = (true, s', disk') ->
  exists d new,
    documents s' = documents s ++ [d]
    /\ document_chunks s' = document_chunks s ++ new
    /\ vector_store s' = vector_store s ++ map (fun c => embed (text c)) new
    /\ new <> []
    /\ id d = llen (documents s)
    /\ chunk_count d = llen new
    /\ filename d = basename path
    /\ file_path d = path
    /\ forall i c, nth_error new i = Some c ->
         doc_id c = id d
         /\ chunk_index c = Z.of_nat i
         /\ chunk_id c = llen (document_chunks s) + Z.of_nat i
         /\ chunk_filename c = basename path
         /\ text c <> "".
Proof.
  unfold _process_document.
  destruct (if endswith (lower path) ".pdf" then _ else _) as [body|];
    [|discriminate].
  destruct (truthy body); [|discriminate].
  pose proof (chunk_default_truthy body) as Htr.
  destruct (chunk_default body) as [|c0 cs] eqn:Hch; [discriminate|].
  destruct (encode_raises env); [discriminate|].
  assert (Hne : c0 :: cs <> []) by discriminate.
  revert Htr Hne. generalize (c0 :: cs) as chunks. intros chunks Htr Hne.
  intros [= <- _]. do 2 eexists. cbn [documents document_chunks vector_store].
  split; [reflexivity|]. split; [reflexivity|].
  split; [now rewrite encode_texts|].
  split.
  { intros H. apply (f_equal (@List.length Chunk)) in H.
    rewrite length_map, enumerate_length in H.
    destruct chunks; [congruence | discriminate]. }
  split; [reflexivity|].
  split; [unfold llen; cbn [chunk_count]; now rewrite length_map, enumerate_length|].
  split; [reflexivity|]. split; [reflexivity|].
  intros i c Hc. apply chunk_records_nth in Hc. destruct Hc as [chunk [Hn ->]].
  cbn. repeat split.
  apply truthy_not_empty. rewrite Forall_forall in Htr. apply Htr.
  now apply nth_error_In in Hn.
Qed.

(** X6.  An ingestion that returns [True] only appends: one document whose
    id is the former length of the document list and whose [chunk_count] is
    the number of chunks added; at least one chunk, each carrying that id,
    its index within the document, the former length of the chunk list plus
    that index as [chunk_id], the base name of the path and a non-empty
    text; and one vector per new chunk. *)
Theorem process_document_appends env path s disk s' disk' :
  _process_document env path s disk = (true, s', disk') ->
  exists d new,
    documents s' = documents s ++ [d]
    /\ document_chunks s' = document_chunks s ++ new
    /\ vector_store s' = vector_store s ++ map (fun c => embed (text c)) new
    /\ new <> []
    /\ id d = llen (documents s)
    /\ chunk_count d = llen new
    /\ filename d = basename path
    /\ file_path d = path
    /\ forall i c, nth_error new i = Some c ->
         doc_id c = id d
         /\ chunk_index c = Z.of_nat i
         /\ chunk_id c = llen (document_chunks s) + Z.of_nat i
         /\ chunk_filename c = basename path
         /\ text c <> "".
Proof. apply process_document_shape. Qed.

Lemma filter_none {A} (p : A -> bool) (l : list A) :
  (forall x, In x l -> p x = false) -> filter p l = [].
Proof.
  induction l as [|x l IH]; intros H; simpl; [reflexivity|].
  rewrite (H x) by now left. apply IH. intros y Hy. apply H. now right.
Qed.

Lemma filter_all {A} (p : A -> bool) (l : list A) :
  (forall x, In x l -> p x = true) -> filter p l = l.
Proof.
  induction l as [|x l IH]; intros H; simpl; [reflexivity|].
  rewrite (H x) by now left. f_equal. apply IH. intros y Hy. apply H. now right.
Qed.

Lemma counts_agree_spec (s : RAGSystem) :
  counts_agree s = true
  <-> forall d, In d (documents s) -> chunk_count d = chunks_of s d.
Proof.
  unfold counts_agree. rewrite forallb_forall. split; intros H d Hd.
  - now apply Z.eqb_eq, H.
  - now apply Z.eqb_eq, H.
Qed.

Lemma in_position {A} (l : list A) (x : A) :
  In x l -> exists i, (i < List.length l)%nat /\ nth_error l i = Some x.
Proof.
  intros H. destruct (In_nth_error _ _ H) as [i Hi]. exists i. split; [|exact Hi].
  apply nth_error_Some. congruence.
Qed.

(** An ingestion keeps the numbering. *)
Lemma process_document_numbered env path s disk r s' disk' :
  numbered s ->
  _process_document env path s disk = (r, s', disk') ->
  numbered s'.
Proof.
  intros Hnum Hrun. destruct r.
  2:{ apply process_document_false in Hrun. destruct Hrun as [-> _]. exact Hnum. }
  destruct Hnum as [Hids [Hcids [Hown Hcnt]]].
  destruct (process_document_shape _ _ _ _ _ _ Hrun)
    as [d [new [Hd [Hc [_ [_ [Hid [Hcc [_ [_ Hnew]]]]]]]]]].
  assert (Hnewid : forall c, In c new -> doc_id c = llen (documents s)).
  { intros c Hin. destruct (in_position _ _ Hin) as [i [_ Hi]].
    destruct (Hnew i c Hi) as [H _]. congruence. }
  unfold numbered, ids_are_positions, chunk_ids_are_positions, chunks_owned.
  rewrite Hd, Hc. repeat split.
  - intros i x Hx. destruct (Nat.lt_ge_cases i (List.length (documents s))) as [Hlt|Hge].
    + rewrite nth_error_app1 in Hx by exact Hlt. now apply Hids.
    + rewrite nth_error_app2 in Hx by exact Hge.
      destruct (i - List.length (documents s))%nat as [|k] eqn:Hk.
      * injection Hx as <-. rewrite Hid. unfold llen. lia.
      * simpl in Hx. now destruct k.
  - intros i c Hx.
    destruct (Nat.lt_ge_cases i (List.length (document_chunks s))) as [Hlt|Hge].
    + rewrite nth_error_app1 in Hx by exact Hlt. now apply Hcids.
    + rewrite nth_error_app2 in Hx by exact Hge.
      destruct (Hnew _ _ Hx) as [_ [_ [Hci _]]]. rewrite Hci. unfold llen. lia.
  - apply in_app_or in H. destruct H as [H|H].
    + apply Hown in H. lia.
    + rewrite (Hnewid _ H). unfold llen. lia.
  - apply in_app_or in H. unfold llen in *. rewrite length_app. simpl.
    destruct H as [H|H].
    + apply Hown in H. unfold llen in H. lia.
    + rewrite (Hnewid _ H). unfold llen. lia.
  - apply counts_agree_spec. rewrite Hd. intros x Hx.
    unfold chunks_of. rewrite Hc, filter_app. unfold llen. rewrite length_app.
    apply in_app_or in Hx. destruct Hx as [Hx|[<-|[]]].
    + rewrite (filter_none _ new).
      * simpl. rewrite Nat.add_0_r.
        apply (proj1 (counts_agree_spec s) Hcnt) in Hx. exact Hx.
      * intros c Hin. rewrite (Hnewid _ Hin).
        destruct (in_position _ _ Hx) as [i [Hi Hix]]. rewrite (Hids _ _ Hix).
        apply Z.eqb_neq. unfold llen. lia.
    + rewrite (filter_none _ (document_chunks s)), (filter_all _ new).
      * simpl. exact Hcc.
      * intros c Hin. rewrite (Hnewid _ Hin), Hid. apply Z.eqb_refl.
      * intros c Hin. apply Hown in Hin. rewrite Hid. apply Z.eqb_neq. lia.
Qed.

Lemma empty_numbered : numbered (_load_or_create_vector_store empty_disk).
Proof.
  unfold numbered, ids_are_positions, chunk_ids_are_positions, chunks_owned.
  simpl. split; [|split; [|split]].
  - intros [|i] d Hd; discriminate.
  - intros [|i] c Hc; discriminate.
  - intros c [].
  - reflexivity.
Qed.

Lemma ingest_only_is_numbered s : ingest_only s -> numbered s.
Proof.
  induction 1 as [|s disk env path r s' disk' _ IH Hrun].
  - apply empty_numbered.
  - exact (process_document_numbered _ _ _ _ _ _ _ IH Hrun).
Qed.

(** X7.  While documents are only ingested, never removed, the id of every
    document and the [chunk_id] of every chunk is its position in its list,
    every chunk carries the id of a listed document, and every document's
    [chunk_count] is the number of chunks carrying its id. *)
Theorem ingest_only_numbered s :
  ingest_only s ->
  ids_are_positions s /\ chunk_ids_are_positions s /\ chunks_owned s
  /\ counts_agree s = true.
Proof. apply ingest_only_is_numbered. Qed.

Lemma extraction_strip env path body :
  extraction_of env path = Some body -> strip body = body.
Proof.
  unfold extraction_of, _extract_text_from_pdf, _extract_text_from_txt.
  destruct (endswith (lower path) ".pdf").
  - destruct (pdf_pages env); intros [= <-]; [apply strip_idem | reflexivity].
  - destruct (endswith (lower path) ".txt"); [|discriminate].
    destruct (file_text env); intros [= <-]; [apply strip_idem | reflexivity].
Qed.

(** X26.  A supported file whose stripped text is non-empty and holds at
    most 800 characters is ingested, when the embedding call does not raise,
    as exactly one chunk: the whole stripped text, with index 0 and the
    former length of the chunk list as its [chunk_id]. *)
Theorem short_document_one_chunk env path s disk body :
  extraction_of env path = Some body ->
  truthy body = true ->
  len body <= 800 ->
  encode_raises env = false ->
  exists s' disk',
    _process_document env path s disk = (true, s', disk')
    /\ document_chunks s'
       = document_chunks s
         ++ [{| doc_id := llen (documents s);
                chunk_id := llen (document_chunks s) + 0;
                text := body;
                chunk_filename := basename path;
                chunk_index := 0 |}]
    /\ vector_store s' = vector_store s ++ [embed body].
Proof.
  intros Hex Ht Hlen He.
  assert (Hchunks : chunk_default body = [body]).
  { unfold chunk_default, default_fuel.
    rewrite (chunk_text_one_window _ body 1000 200 Ht); [|lia|lia].
    rewrite (extraction_strip _ _ _ Hex). simpl. now rewrite Ht. }
  unfold _process_document. unfold extraction_of in Hex. rewrite Hex, Ht, Hchunks, He.
  do 2 eexists. split; [reflexivity|]. split; reflexivity.
Qed.

End Ingest.
End IngestExtras.

(** ** More properties of removal and persistence *)

Module RemoveExtras.
Import Py PyFacts Chunker Rag RagFacts QueryFacts Ingestion IngestExtras.

Section Remove.
Context `{EP : EmbeddingProvider} `{VI : VectorIndex vec}.

Lemma pop_nonneg {A} (l : list A) (i : Z) :
  0 <= i < llen l ->
  exists x,
    nth_error l (Z.to_nat i) = Some x
    /\ pop l i = Some (x, firstn (Z.to_nat i) l ++ skipn (S (Z.to_nat i)) l).
Proof.
  intros Hi. unfold pop, llen in *.
  destruct (Z.ltb_spec i 0); [lia|].
  destruct (Z.leb_spec 0 i); [|lia].
  destruct (Z.ltb_spec i (Z.of_nat (List.length l))); [|lia].
  simpl andb.
  destruct (nth_error l (Z.to_nat i)) as [x|] eqn:Hx.
  - exists x. split; reflexivity.
  - apply nth_error_None in Hx. lia.
Qed.

(** The result of a removal once [pop] has found its document and the
    embedding call does not raise. *)
Lemma remove_document_result env doc s disk d docs' :
  doc < llen (documents s) ->
  pop (documents s) doc = Some (d, docs') ->
  encode_raises env = false ->
  let s' := {| documents := docs';
               document_chunks :=
                 filter (fun c => negb (doc_id c =? doc)) (document_chunks s);
               vector_store :=
                 encode (map text (filter (fun c => negb (doc_id c =? doc))
                                          (document_chunks s))) |} in
  remove_document env doc s disk
  = (negb (firestore_raises env), s', _save_vector_store env s' disk).
Proof.
  intros Hlt Hp He s'. subst s'. unfold remove_document.
  destruct (Z.geb_spec doc (llen (documents s))); [lia|].
  rewrite Hp, He.
  destruct (filter _ (document_chunks s)) as [|c cs]; reflexivity.
Qed.

Lemma length_remove_nth {A} (l : list A) (k : nat) :
  (k < List.length l)%nat ->
  (List.length (firstn k l ++ skipn (S k) l) + 1 = List.length l)%nat.
Proof.
  intros Hk. rewrite length_app, length_firstn, length_skipn. lia.
Qed.

(** X8.  In a state where ids are positions and counts agree (such as any
    state built by ingestions alone), removing the document at a valid
    position while nothing outside fails returns [True], drops that document
    and exactly the chunks that carry its id, keeps the other chunks in
    order, shortens the chunk list by the document's [chunk_count], rebuilds
    an aligned vector store and saves the result. *)
Theorem remove_document_numbered env doc s disk :
  ids_are_positions s ->
  counts_agree s = true ->
  0 <= doc < llen (documents s) ->
  encode_raises env = false ->
  firestore_raises env = false ->
  exists d s',
    nth_error (documents s) (Z.to_nat doc) = Some d
    /\ id d = doc
    /\ remove_document env doc s disk = (true, s', _save_vector_store env s' disk)
    /\ documents s'
       = firstn (Z.to_nat doc) (documents s) ++ skipn (S (Z.to_nat doc)) (documents s)
    /\ document_chunks s'
       = filter (fun c => negb (doc_id c =? doc)) (document_chunks s)
    /\ llen (document_chunks s') = llen (document_chunks s) - chunk_count d
    /\ (forall c, In c (document_chunks s') -> doc_id c <> doc)
    /\ aligned s'.
Proof.
  intros Hids Hcnt Hdoc He Hf.
  destruct (pop_nonneg (documents s) doc Hdoc) as [d [Hd Hp]].
  assert (Hid : id d = doc) by (rewrite (Hids _ _ Hd); lia).
  pose proof (remove_document_result env doc s disk d _ (proj2 Hdoc) Hp He) as Hr.
  cbv zeta in Hr. rewrite Hf in Hr. simpl negb in Hr.
  eexists d, _. split; [exact Hd|]. split; [exact Hid|]. split; [exact Hr|].
  cbn [documents document_chunks vector_store].
  split; [reflexivity|]. split; [reflexivity|]. split; [|split].
  - pose proof (proj1 (counts_agree_spec s) Hcnt d (nth_error_In _ _ Hd)) as Hc.
    rewrite Hc. unfold chunks_of, llen. rewrite Hid.
    pose proof (filter_length (fun c => doc_id c =? doc) (document_chunks s)). lia.
  - intros c Hc. apply filter_In in Hc. destruct Hc as [_ Hc].
    apply negb_true_iff in Hc. now apply Z.eqb_neq.
  - apply aligned_map. apply encode_texts.
Qed.

(** X9.  When the Firestore delete raises, [remove_document] returns
    [False] although the removal has been applied in memory and saved: the
    document list is one shorter and the disk holds the new state. *)
Theorem remove_document_firestore_failure env doc s disk :
  0 <= doc < llen (documents s) ->
  encode_raises env = false ->
  firestore_raises env = true ->
  exists s',
    remove_document env doc s disk = (false, s', _save_vector_store env s' disk)
    /\ (List.length (documents s') + 1 = List.length (documents s))%nat
    /\ document_chunks s'
       = filter (fun c => negb (doc_id c =? doc)) (document_chunks s)
    /\ aligned s'.
Proof.
  intros Hdoc He Hf.
  destruct (pop_nonneg (documents s) doc Hdoc) as [d [Hd Hp]].
  pose proof (remove_document_result env doc s disk d _ (proj2 Hdoc) Hp He) as Hr.
  cbv zeta in Hr. rewrite Hf in Hr. simpl negb in Hr.
  eexists. split; [exact Hr|]. cbn [documents document_chunks vector_store].
  split; [|split; [reflexivity|]].
  - apply length_remove_nth. unfold llen in Hdoc. lia.
  - apply aligned_map. apply encode_texts.
Qed.

(** A call that returned [True] went through [_save_vector_store]. *)
Lemma run_op_saved env op s disk s' disk' :
  run_op env op s disk = (true, s', disk') ->
  disk' = _save_vector_store env s' disk.
Proof.
  destruct op as [path|doc]; simpl.
  - unfold _process_document.
    destruct (if endswith (lower path) ".pdf" then _ else _) as [body|];
      [|discriminate].
    destruct (truthy body); [|discriminate].
    destruct (chunk_default body); [discriminate|].
    destruct (encode_raises env); [discriminate|]. now intros [= <- <-].
  - unfold remove_document.
    destruct (doc >=? llen (documents s)); [discriminate|].
    destruct (pop (documents s) doc) as [[d docs']|]; [|discriminate].
    destruct (filter _ (document_chunks s)).
    + now intros [= _ <- <-].
    + destruct (encode_raises env); [discriminate|]. now intros [= _ <- <-].
Qed.

(** X10.  After an ingest or a remove that returned [True] and whose save
    did not raise, a fresh instance started on the disk has the same chunk
    list and the same vectors, the same documents up to the string form of
    their upload dates, and is aligned whenever the running instance is. *)
Theorem restart_after_success env op s disk s' disk' :
  run_op env op s disk = (true, s', disk') ->
  save_failure env = None ->
  let restarted := _load_or_create_vector_store disk' in
  document_chunks restarted = document_chunks s'
  /\ vector_store restarted = vector_store s'
  /\ documents restarted = map json_document (documents s')
  /\ (aligned s' -> aligned restarted).
Proof.
  intros Hrun Hsave restarted. subst restarted.
  rewrite (run_op_saved _ _ _ _ _ _ Hrun), (load_after_save env s' disk Hsave).
  cbn [documents document_chunks vector_store].
  split; [reflexivity|]. split; [reflexivity|]. split; [reflexivity|].
  intros Ha. apply aligned_map in Ha. apply aligned_map. exact Ha.
Qed.

(** X23.  A load never fails: unless both artifacts are present and
    readable it gives the empty system, whatever the other artifact holds. *)
Theorem load_falls_back_to_empty disk :
  (forall vs, index_file disk <> Stored vs)
  \/ (forall content, docs_file disk <> Stored content) ->
  _load_or_create_vector_store disk = empty_system.
Proof.
  unfold _load_or_create_vector_store. intros [H|H].
  - destruct (index_file disk) as [| |vs]; try reflexivity. now elim (H vs).
  - destruct (index_file disk) as [| |vs]; try reflexivity.
    destruct (docs_file disk) as [| |[docs chunks]]; try reflexivity.
    now elim (H (docs, chunks)).
Qed.

(** X24.  [remove_document] refuses a position outside the document list:
    for [doc_id >= len(documents)] and for [doc_id < -len(documents)] it
    returns [False] and changes neither the instance nor the disk; on an
    empty catalog this is every [doc_id]. *)
Theorem remove_document_out_of_range env doc s disk :
  llen (documents s) <= doc \/ doc < - llen (documents s) ->
  remove_document env doc s disk = (false, s, disk).
Proof.
  intros H. unfold remove_document.
  destruct (Z.geb_spec doc (llen (documents s))) as [|Hlt]; [reflexivity|].
  destruct H as [H|H]; [lia|]. now rewrite (pop_below (documents s) doc H).
Qed.

(** X25.  A removal that returns [True] leaves an aligned state whatever
    the state before was: the store is rebuilt from the surviving chunks, so
    a store left stale by an earlier failed removal is repaired. *)
Theorem remove_document_realigns env doc s disk s' disk' :
  remove_document env doc s disk = (true, s', disk') ->
  aligned s'.
Proof.
  unfold remove_document.
  destruct (doc >=? llen (documents s)); [discriminate|].
  destruct (pop (documents s) doc) as [[d docs']|]; [|discriminate].
  destruct (filter _ (document_chunks s)) as [|c cs] eqn:Hf.
  - intros [= _ <- _]. apply aligned_map. reflexivity.
  - destruct (encode_raises env); [discriminate|].
    intros [= _ <- _]. apply aligned_map. exact (encode_texts (c :: cs)).
Qed.

End Remove.
End RemoveExtras.

(** ** More properties of retrieval and of the query path *)

Module QueryExtras.
Import Py PyFacts Chunker Rag RagFacts QueryFacts.

Section Query.
Context `{EP : EmbeddingProvider} `{VI : VectorIndex vec}.

Lemma index_In {A} (l : list A) (i : Z) (x : A) : index l i = Some x -> In x l.
Proof.
  unfold index.
  destruct ((0 <=? i) && (i <? Z.of_nat (List.length l)));
    [apply nth_error_In|].
  destruct ((- Z.of_nat (List.length l) <=? i) && (i <? 0));
    [apply nth_error_In | discriminate].
Qed.

(** The loop yields at most one hit per search result, each a chunk of the
    list. *)
Lemma collect_hits_sub chunks results :
  forall hits,
    collect_hits chunks results = Some hits ->
    (List.length hits <= List.length results)%nat
    /\ Forall (fun h => In (hit_chunk h) chunks) hits.
Proof.
  induction results as [|[sc idx] results IH]; intros hits H; simpl in H.
  - injection H as <-. split; [simpl; lia | constructor].
  - destruct (idx <? llen chunks).
    + destruct (index chunks idx) as [c|] eqn:Hc; [|discriminate].
      destruct (collect_hits chunks results) as [h|]; [|discriminate].
      injection H as <-. destruct (IH h eq_refl) as [Hl Hf]. split.
      * simpl. lia.
      * constructor; [exact (index_In _ _ _ Hc) | exact Hf].
    + destruct (IH hits H) as [Hl Hf]. split; [simpl; lia | exact Hf].
Qed.

(** A search answers with exactly [k] pairs. *)
Lemma search_length (vs : list vec) (q : vec) (k : nat) :
  List.length (search vs q k) = k.
Proof.
  unfold search. rewrite length_app, length_map, repeat_length.
  pose proof (firstn_le_length k (rank q vs)). lia.
Qed.

(** Positions inside the chunk list each give one hit with its score. *)
Lemma collect_hits_scored chunks (f : nat -> score) (found : list nat) :
  (forall i, In i found -> (i < List.length chunks)%nat) ->
  exists hits,
    collect_hits chunks (map (fun i => (f i, Z.of_nat i)) found) = Some hits
    /\ Forall2 (fun i h => nth_error chunks i = Some (hit_chunk h)
                           /\ similarity_score h = f i) found hits.
Proof.
  induction found as [|i found IH]; intros Hin; simpl.
  - exists []. split; [reflexivity | constructor].
  - destruct IH as [hits [Hc Hf]]; [intros j Hj; apply Hin; now right|].
    assert (Hi : (i < List.length chunks)%nat) by (apply Hin; now left).
    destruct (nth_error chunks i) as [c|] eqn:Hn;
      [|apply nth_error_None in Hn; lia].
    unfold llen, index.
    destruct (Z.ltb_spec (Z.of_nat i) (Z.of_nat (List.length chunks))); [|lia].
    destruct (Z.leb_spec 0 (Z.of_nat i)); [|lia]. simpl andb.
    rewrite Nat2Z.id, Hn. fold (@llen Chunk chunks). rewrite Hc.
    eexists. split; [reflexivity|]. constructor; [|exact Hf].
    split; [exact Hn | reflexivity].
Qed.

Lemma firstn_In {A} (k : nat) (l : list A) (x : A) :
  In x (firstn k l) -> In x l.
Proof.
  intros H. rewrite <- (firstn_skipn k l). apply in_or_app. now left.
Qed.

Lemma NoDup_firstn {A} (k : nat) (l : list A) : NoDup l -> NoDup (firstn k l).
Proof.
  intros H. rewrite <- (firstn_skipn k l) in H. now apply NoDup_app_remove_r in H.
Qed.

(** With as many vectors as chunks and at least one chunk, a retrieval
    whose embedding call does not raise gives exactly [top_k] hits. *)
Lemma retrieve_full env q (k : nat) s :
  encode_raises env = false ->
  List.length (vector_store s) = List.length (document_chunks s) ->
  document_chunks s <> [] ->
  exists hits,
    _retrieve_relevant_chunks env q k s = (hits, [CallEncode [q]; CallSearch k])
    /\ List.length hits = k.
Proof.
  intros He Hlen Hne. unfold _retrieve_relevant_chunks.
  destruct (document_chunks s) as [|c0 cs] eqn:Hcs; [now elim Hne|].
  rewrite He. rewrite <- Hcs in *. clear Hne.
  destruct (collect_hits (document_chunks s)
              (search (vector_store s) (embed q) k)) as [hits|] eqn:Hcol.
  - exists hits. split; [reflexivity|].
    revert Hcol. unfold search.
    set (found := firstn k (rank (embed q) (vector_store s))).
    destruct (collect_hits_found (document_chunks s)
                (fun i => match nth_error (vector_store s) i with
                          | Some v => inner (embed q) v
                          | None => pad_score
                          end) found) as [h1 [H1 Hf1]].
    { intros i Hi. apply firstn_In in Hi. apply rank_in_range in Hi. lia. }
    destruct (nth_error (document_chunks s) (List.length (document_chunks s) - 1))
      as [c|] eqn:Hc;
      [|apply nth_error_None in Hc; rewrite Hcs in Hc; simpl in Hc; lia].
    pose proof (collect_hits_padding (document_chunks s) c
                  (k - List.length found) Hc) as H2.
    rewrite (collect_hits_app _ _ _ _ _ H1 H2). intros [= <-].
    rewrite length_app, repeat_length, <- (Forall2_length Hf1).
    pose proof (firstn_le_length k (rank (embed q) (vector_store s))).
    fold found in H. lia.
  - exfalso. revert Hcol. unfold search.
    set (found := firstn k (rank (embed q) (vector_store s))).
    destruct (collect_hits_found (document_chunks s)
                (fun i => match nth_error (vector_store s) i with
                          | Some v => inner (embed q) v
                          | None => pad_score
                          end) found) as [h1 [H1 Hf1]].
    { intros i Hi. apply firstn_In in Hi. apply rank_in_range in Hi. lia. }
    destruct (nth_error (document_chunks s) (List.length (document_chunks s) - 1))
      as [c|] eqn:Hc;
      [|apply nth_error_None in Hc; rewrite Hcs in Hc; simpl in Hc; lia].
    pose proof (collect_hits_padding (document_chunks s) c
                  (k - List.length found) Hc) as H2.
    rewrite (collect_hits_app _ _ _ _ _ H1 H2). discriminate.
Qed.

(** X11.  A blank question (empty or white space only) gets the fixed
    request for a question, and no call leaves the process: nothing is
    embedded, searched, generated or logged. *)
Theorem blank_query env q s :
  truthy (strip q) = false ->
  query env q s = (blank_reply, []).
Proof. intros Hq. unfold query. now rewrite Hq. Qed.

(** X12.  When the embedding call raises during a query on a non-empty
    catalog, the answer is the no-information reply, not an apology; the
    generative model is not called and nothing is logged. *)
Theorem query_encode_failure env q s :
  truthy (strip q) = true ->
  document_chunks s <> [] ->
  encode_raises env = true ->
  query env q s = (no_information_reply, [CallEncode [q]]).
Proof.
  intros Hq Hne He. unfold query, _retrieve_relevant_chunks. rewrite Hq, He.
  destruct (document_chunks s); [now elim Hne | reflexivity].
Qed.

(** X13.  In any state, aligned or not, a retrieval returns at most
    [top_k] hits, and every hit is a chunk of the chunk list. *)
Theorem retrieve_within_catalog env q (k : nat) s :
  let hits := fst (_retrieve_relevant_chunks env q k s) in
  (List.length hits <= k)%nat
  /\ forall h, In h hits -> In (hit_chunk h) (document_chunks s).
Proof.
  cbv zeta. unfold _retrieve_relevant_chunks.
  destruct (document_chunks s) as [|c0 cs] eqn:Hcs;
    [simpl; split; [lia | contradiction]|].
  destruct (encode_raises env); [simpl; split; [lia | contradiction]|].
  rewrite <- Hcs.
  destruct (collect_hits (document_chunks s) _) as [hits|] eqn:Hcol;
    [|simpl; split; [lia | contradiction]].
  destruct (collect_hits_sub _ _ _ Hcol) as [Hl Hf]. rewrite search_length in Hl.
  simpl. split; [exact Hl|]. now apply Forall_forall.
Qed.

(** X14.  In an aligned state that holds at least [top_k] chunks, a
    retrieval whose embedding call does not raise returns one hit for each
    of the first [top_k] ranked positions, in rank order: distinct
    positions, the chunk stored at each, scored by the similarity between
    the question and that chunk's own text. *)
Theorem retrieve_top_k env q (k : nat) s :
  encode_raises env = false ->
  aligned s ->
  (k <= List.length (document_chunks s))%nat ->
  (0 < k)%nat ->
  let top := firstn k (rank (embed q) (vector_store s)) in
  NoDup top
  /\ List.length top = k
  /\ Forall2 (fun i h =>
                nth_error (document_chunks s) i = Some (hit_chunk h)
                /\ similarity_score h
                   = inner (embed q) (embed (text (hit_chunk h))))
             top (fst (_retrieve_relevant_chunks env q k s)).
Proof.
  intros He Ha Hk Hpos top. destruct Ha as [Hlen Hnth].
  pose proof (rank_length (embed q) (vector_store s)) as Hrl.
  assert (Htop : List.length top = k).
  { subst top. rewrite length_firstn. lia. }
  split.
  { subst top. apply NoDup_firstn.
    apply (Permutation_NoDup (Permutation_sym (rank_perm _ _))). apply seq_NoDup. }
  split; [exact Htop|].
  unfold _retrieve_relevant_chunks.
  destruct (document_chunks s) as [|c0 cs] eqn:Hcs; [simpl in Hk; lia|].
  rewrite He. rewrite <- Hcs in *. unfold search. fold top. rewrite Htop, Nat.sub_diag.
  simpl repeat. rewrite app_nil_r.
  destruct (collect_hits_scored (document_chunks s)
              (fun i => match nth_error (vector_store s) i with
                        | Some v => inner (embed q) v
                        | None => pad_score
                        end) top) as [hits [Hcol Hf2]].
  { intros i Hi. subst top. apply firstn_In in Hi. apply rank_in_range in Hi. lia. }
  rewrite Hcol. simpl fst.
  eapply Forall2_impl; [|exact Hf2].
  intros i h [Hc Hs]. split; [exact Hc|].
  rewrite Hs, (Hnth _ _ Hc). reflexivity.
Qed.

(** X15.  In a state with as many vectors as chunks and at least one
    chunk, a non-blank question whose embedding does not raise is answered
    with the completion verbatim, or with the generation apology when the
    completion call raises.  The calls made are, in order: one embedding,
    one search for 5 neighbours, one completion on the prompt built from the
    5 retrieved hits, and one analytics record counting 5 chunks. *)
Theorem query_answers env q s :
  truthy (strip q) = true ->
  encode_raises env = false ->
  List.length (vector_store s) = List.length (document_chunks s) ->
  document_chunks s <> [] ->
  query env q s
  = (match groq_reply env with
     | Some reply => reply
     | None => generation_apology
     end,
     [CallEncode [q]; CallSearch 5;
      CallGroq (prompt_of q (fst (_retrieve_relevant_chunks env q 5 s)));
      CallLog q 5 (llen (documents s))]).
Proof.
  intros Hq He Hlen Hne.
  destruct (retrieve_full env q 5 s He Hlen Hne) as [hits [Hr Hl]].
  unfold query. rewrite Hq, Hr. cbn [fst].
  destruct hits as [|h hs]; [discriminate|].
  unfold _generate_response, _log_query, llen. rewrite Hl. reflexivity.
Qed.

(** String concatenation, as the prompt is built. *)
Lemma append_assoc (a b c : string) :
  ((a ++ b) ++ c)%string = (a ++ b ++ c)%string.
Proof. induction a as [|x a IH]; simpl; [reflexivity | now rewrite IH]. Qed.

Lemma append_empty_r (a : string) : (a ++ "")%string = a.
Proof. induction a as [|x a IH]; simpl; [reflexivity | now rewrite IH]. Qed.

(** Every part of a join occurs in it. *)
Lemma join_contains (sep : string) (parts : list string) (p : string) :
  In p parts -> exists pre post, join sep parts = (pre ++ p ++ post)%string.
Proof.
  induction parts as [|p0 rest IH]; intros Hin; [contradiction|].
  destruct Hin as [->|Hin].
  - exists "". destruct rest as [|p1 rest].
    + exists "". simpl. now rewrite append_empty_r.
    + exists (sep ++ join sep (p1 :: rest))%string. reflexivity.
  - destruct (IH Hin) as [pre [post Hj]].
    destruct rest as [|p1 rest]; [contradiction|].
    exists (p0 ++ sep ++ pre)%string, post.
    change (join sep (p0 :: p1 :: rest))
      with (p0 ++ sep ++ join sep (p1 :: rest))%string.
    rewrite Hj. now rewrite !append_assoc.
Qed.

(** X27.  The prompt given to the generative model contains, for every
    retrieved hit, a block made of ["From "], the hit's file name, a colon, a
    newline and the hit's text; and it ends with the question followed by
    the answer cue. *)
Theorem prompt_names_sources (q : string) (context_chunks : list Hit) (h : Hit) :
  In h context_chunks ->
  (exists pre post,
     prompt_of q context_chunks
     = (pre ++ ("From " ++ chunk_filename (hit_chunk h) ++ ":" ++ nl
                ++ text (hit_chunk h)) ++ post)%string)
  /\ exists pre,
      prompt_of q context_chunks
      = (pre ++ "Question: " ++ q ++ nl ++ nl ++ "Answer:")%string.
Proof.
  intros Hin. split.
  - assert (Hb : In ("From " ++ chunk_filename (hit_chunk h) ++ ":" ++ nl
                     ++ text (hit_chunk h))%string
                    (map (fun h => ("From " ++ chunk_filename (hit_chunk h) ++ ":"
                                    ++ nl ++ text (hit_chunk h))%string)
                         context_chunks)).
    { exact (in_map (fun h => ("From " ++ chunk_filename (hit_chunk h) ++ ":"
                               ++ nl ++ text (hit_chunk h))%string) _ _ Hin). }
    destruct (join_contains (nl ++ nl)%string _ _ Hb) as [pre [post Hj]].
    unfold prompt_of, context_block. rewrite Hj.
    set (head := "Based on the following context from uploaded notes and documents, please answer the question. If the answer cannot be found in the context, say so clearly.").
    exists (head ++ nl ++ nl ++ "Context:" ++ nl ++ pre)%string,
           (post ++ nl ++ nl ++ "Question: " ++ q ++ nl ++ nl ++ "Answer:")%string.
    now rewrite !append_assoc.
  - unfold prompt_of.
    set (head := "Based on the following context from uploaded notes and documents, please answer the question. If the answer cannot be found in the context, say so clearly.").
    exists (head ++ nl ++ nl ++ "Context:" ++ nl ++ context_block context_chunks
            ++ nl ++ nl)%string.
    now rewrite !append_assoc.
Qed.

End Query.
End QueryExtras.

(** ** Facts about suffixes and extensions *)

Module SuffixFacts.
Import Py PyFacts StringFacts.

Lemma append_length (a b : string) :
  String.length (a ++ b)%string = (String.length a + String.length b)%nat.
Proof. induction a as [|c a IH]; simpl; [reflexivity | now rewrite IH]. Qed.

Lemma append_len (a b : string) : len (a ++ b)%string = len a + len b.
Proof. unfold len. rewrite append_length. lia. Qed.

Lemma lower_length (s : string) : String.length (lower s) = String.length s.
Proof. induction s as [|c s IH]; simpl; [reflexivity | now rewrite IH]. Qed.

Lemma lower_append (a b : string) :
  lower (a ++ b)%string = (lower a ++ lower b)%string.
Proof. induction a as [|c a IH]; simpl; [reflexivity | now rewrite IH]. Qed.

Lemma lower_substring (s : string) :
  forall n m, lower (substring n m s) = substring n m (lower s).
Proof.
  induction s as [|c s IH]; intros n m.
  - destruct n, m; reflexivity.
  - destruct n as [|n].
    + destruct m as [|m]; simpl; [reflexivity | now rewrite IH].
    + simpl. apply IH.
Qed.

Lemma lower_slice (s : string) (a b : Z) : lower (slice s a b) = slice (lower s) a b.
Proof.
  unfold slice, len. rewrite lower_length.
  destruct (_ <? _); [apply lower_substring | reflexivity].
Qed.

(** Lowering neither makes nor removes a full stop. *)
Lemma lower_char_dot (c : ascii) :
  Ascii.eqb (lower_char c) "." = Ascii.eqb c ".".
Proof.
  destruct c as [b0 b1 b2 b3 b4 b5 b6 b7].
  destruct b0, b1, b2, b3, b4, b5, b6, b7; reflexivity.
Qed.

Lemma rfind_aux_lower (s : string) :
  forall i acc, rfind_aux "." (lower s) i acc = rfind_aux "." s i acc.
Proof.
  induction s as [|c s IH]; intros i acc; simpl; [reflexivity|].
  now rewrite lower_char_dot, IH.
Qed.

Lemma rfind_lower (s : string) : rfind "." (lower s) = rfind "." s.
Proof. apply rfind_aux_lower. Qed.

Lemma rfind_aux_app (c : ascii) (a b : string) :
  forall i acc,
    rfind_aux c (a ++ b)%string i acc
    = rfind_aux c b (i + len a) (rfind_aux c a i acc).
Proof.
  induction a as [|x a IH]; intros i acc; simpl.
  - unfold len. simpl. now rewrite Z.add_0_r.
  - rewrite IH. f_equal. unfold len. simpl String.length. lia.
Qed.

Lemma substring_app_right (a b : string) :
  forall k m, substring (String.length a + k) m (a ++ b)%string = substring k m b.
Proof. induction a as [|x a IH]; intros k m; simpl; [reflexivity | apply IH]. Qed.

Lemma substring_split (s : string) :
  forall k, (k <= String.length s)%nat ->
            (substring 0 k s ++ substring k (String.length s - k) s)%string = s.
Proof.
  induction s as [|c s IH]; intros k Hk.
  - destruct k; [reflexivity | simpl in Hk; lia].
  - destruct k as [|k]; simpl.
    + now rewrite substring_full.
    + rewrite IH by (simpl in Hk; lia). reflexivity.
Qed.

(** A string that ends with a suffix is something followed by it. *)
Lemma endswith_split (s suffix : string) :
  endswith s suffix = true -> exists a, s = (a ++ suffix)%string.
Proof.
  unfold endswith. intros H. apply andb_true_iff in H. destruct H as [Hle Heq].
  apply Nat.leb_le in Hle. apply String.eqb_eq in Heq.
  exists (substring 0 (String.length s - String.length suffix) s).
  rewrite <- Heq at 2.
  pose proof (substring_split s (String.length s - String.length suffix)) as Hs.
  replace (String.length s - (String.length s - String.length suffix))%nat
    with (String.length suffix) in Hs by lia.
  symmetry. apply Hs. lia.
Qed.

(** A suffix no longer than the last part is a suffix of that part. *)
Lemma endswith_app (a b suffix : string) :
  (String.length suffix <= String.length b)%nat ->
  endswith (a ++ b)%string suffix = endswith b suffix.
Proof.
  intros Hle. unfold endswith. rewrite append_length.
  replace (String.length a + String.length b - String.length suffix)%nat
    with (String.length a + (String.length b - String.length suffix))%nat by lia.
  rewrite substring_app_right.
  destruct (Nat.leb_spec (String.length suffix) (String.length b)); [|lia].
  destruct (Nat.leb_spec (String.length suffix)
                         (String.length a + String.length b)); [|lia].
  reflexivity.
Qed.

(** What follows position [len a] of [a ++ b] is [b]. *)
Lemma slice_app_right (a b : string) (k : Z) :
  0 <= k <= len b ->
  slice (a ++ b)%string (len a + k) (len (a ++ b)%string) = slice b k (len b).
Proof.
  intros Hk. unfold slice. rewrite !append_len.
  pose proof (len_nonneg a) as Ha. pose proof (len_nonneg b) as Hb.
  unfold clamp.
  destruct (Z.ltb_spec (len a + k) 0); [lia|].
  destruct (Z.ltb_spec (len a + len b) 0); [lia|].
  destruct (Z.ltb_spec k 0); [lia|]. destruct (Z.ltb_spec (len b) 0); [lia|].
  rewrite !Z.min_l by lia.
  destruct (Z.ltb_spec (len a + k) (len a + len b)),
           (Z.ltb_spec k (len b)); try lia; [|reflexivity].
  replace (Z.to_nat (len a + k)) with (String.length a + Z.to_nat k)%nat
    by (unfold len; lia).
  rewrite substring_app_right. f_equal. lia.
Qed.

(** The part after the last full stop of [a ++ "." ++ ext] is [ext] when
    [ext] holds no full stop. *)
Lemma rsplit_extension (a ext : string) :
  rfind_aux "." ext (len a + 1) (len a) = len a ->
  rfind "." (a ++ String "." ext)%string = len a
  /\ slice (a ++ String "." ext)%string (len a + 1)
           (len (a ++ String "." ext)%string) = ext.
Proof.
  intros Hext. split.
  - unfold rfind. rewrite rfind_aux_app. simpl. exact Hext.
  - rewrite (slice_app_right a (String "." ext) 1).
    + unfold slice, clamp, len. simpl String.length.
      destruct (Z.ltb_spec 1 0); [lia|].
      destruct (Z.ltb_spec (Z.of_nat (S (String.length ext))) 0); [lia|].
      rewrite !Z.min_l by lia.
      destruct (Z.ltb_spec 1 (Z.of_nat (S (String.length ext)))) as [Hlt|Hge].
      * replace (Z.to_nat 1) with 1%nat by lia.
        replace (Z.to_nat (Z.of_nat (S (String.length ext)) - 1))
          with (String.length ext) by lia.
        simpl. apply substring_full.
      * destruct ext; [reflexivity | simpl in Hge; lia].
    + unfold len. simpl String.length. lia.
Qed.

End SuffixFacts.

(** ** Properties of the routes *)

Module AppExtras.
Import Py PyFacts StringFacts SuffixFacts Chunker Rag RagFacts QueryFacts.
Import Ingestion IngestExtras QueryExtras App.

(** [allowed_file] read on the lowered name. *)
Lemma allowed_file_lower (p : string) :
  allowed_file p
  = (0 <=? rfind "." (lower p))
    && existsb (String.eqb (slice (lower p) (rfind "." (lower p) + 1)
                                  (len (lower p))))
               ALLOWED_EXTENSIONS.
Proof.
  unfold allowed_file, contains, rsplit_last.
  rewrite lower_slice, rfind_lower. unfold len. now rewrite lower_length.
Qed.

Lemma allowed_file_extension (p a ext : string) :
  lower p = (a ++ String "." ext)%string ->
  rfind_aux "." ext (len a + 1) (len a) = len a ->
  existsb (String.eqb ext) ALLOWED_EXTENSIONS = true ->
  allowed_file p = true.
Proof.
  intros Hp Hext Hin. rewrite allowed_file_lower, Hp.
  destruct (rsplit_extension a ext Hext) as [Hr Hs].
  rewrite Hr, Hs, Hin. pose proof (len_nonneg a).
  destruct (Z.leb_spec 0 (len a)); [reflexivity | lia].
Qed.

(** X16.  Every path whose type [_process_document] supports (it ends in
    [.pdf] or [.txt] once lowered) is a name the upload filter
    [allowed_file] accepts. *)
Theorem supported_is_allowed (p : string) :
  endswith (lower p) ".pdf" = true \/ endswith (lower p) ".txt" = true ->
  allowed_file p = true.
Proof.
  intros [H|H]; apply endswith_split in H; destruct H as [a Ha].
  - apply (allowed_file_extension p a "pdf" Ha); reflexivity.
  - apply (allowed_file_extension p a "txt" Ha); reflexivity.
Qed.

Lemma supported_is_allowed_witness :
  (endswith (lower "notes/Week1.PDF") ".pdf" = true
   \/ endswith (lower "notes/Week1.PDF") ".txt" = true)
  /\ allowed_file "notes/Week1.PDF" = true.
Proof.
  split; [left; reflexivity|].
  apply (supported_is_allowed "notes/Week1.PDF"). left. reflexivity.
Defined.

Section Routes.
Context `{EP : EmbeddingProvider} `{VI : VectorIndex vec}.

(** X17.  The upload filter is wider than the ingestion: a name with the
    extension [doc], [docx], [ppt] or [pptx] is accepted by [allowed_file],
    and [_process_document] returns [False] on it for every file content,
    leaving the state as it was. *)
Theorem office_files_allowed_but_rejected (stem ext : string) :
  In ext ["doc"; "docx"; "ppt"; "pptx"] ->
  allowed_file (stem ++ "." ++ ext)%string = true
  /\ forall env s disk,
      _process_document env (stem ++ "." ++ ext)%string s disk = (false, s, disk).
Proof.
  intros Hin.
  assert (Hcases : ext = "doc" \/ ext = "docx" \/ ext = "ppt" \/ ext = "pptx").
  { simpl in Hin. intuition auto. }
  assert (Hpdf : endswith (lower (stem ++ "." ++ ext)%string) ".pdf" = false
                 /\ endswith (lower (stem ++ "." ++ ext)%string) ".txt" = false
                 /\ allowed_file (stem ++ "." ++ ext)%string = true).
  { destruct Hcases as [-> | [-> | [-> | ->]]];
      (split; [|split];
       [ rewrite lower_append, endswith_app; [reflexivity | simpl; lia]
       | rewrite lower_append, endswith_app; [reflexivity | simpl; lia]
       | eapply (allowed_file_extension _ (lower stem));
         [ now rewrite lower_append | reflexivity | reflexivity ] ]). }
  destruct Hpdf as [Hp [Ht Ha]]. split; [exact Ha|].
  intros env s disk. unfold _process_document. now rewrite Hp, Ht.
Qed.

(** What one pass of the upload loop does to the counters, to the catalog
    and to the alignment. *)
Lemma upload_one_step dept subj (st : UploadLoop) (f : Upload) :
  let st' := upload_one dept subj st f in
  (List.length (loop_uploaded st') + List.length (loop_failed st')
   = List.length (loop_uploaded st) + List.length (loop_failed st) + 1)%nat
  /\ (List.length (documents (loop_rag st')) + List.length (loop_uploaded st)
      = List.length (documents (loop_rag st)) + List.length (loop_uploaded st'))%nat
  /\ (aligned (loop_rag st) -> aligned (loop_rag st'))
  /\ (Forall (fun e => allowed_file (fst (fst e)) = true) (loop_uploaded st) ->
      Forall (fun e => allowed_file (fst (fst e)) = true) (loop_uploaded st')).
Proof.
  cbv zeta. unfold upload_one.
  assert (Hfail : forall name msg,
             let st' := {| loop_rag := loop_rag st; loop_disk := loop_disk st;
                           loop_uploaded := loop_uploaded st;
                           loop_failed := loop_failed st ++ [(name, msg)] |} in
             (List.length (loop_uploaded st') + List.length (loop_failed st')
              = List.length (loop_uploaded st) + List.length (loop_failed st) + 1)%nat
             /\ (List.length (documents (loop_rag st')) + List.length (loop_uploaded st)
                 = List.length (documents (loop_rag st))
                   + List.length (loop_uploaded st'))%nat
             /\ (aligned (loop_rag st) -> aligned (loop_rag st'))
             /\ (Forall (fun e => allowed_file (fst (fst e)) = true) (loop_uploaded st) ->
                 Forall (fun e => allowed_file (fst (fst e)) = true)
                        (loop_uploaded st'))).
  { intros name msg. cbn [loop_rag loop_disk loop_uploaded loop_failed].
    rewrite length_app. simpl List.length.
    split; [lia|]. split; [lia|]. split; auto. }
  destruct (truthy (upload_filename f)); [|apply Hfail].
  destruct (allowed_file (upload_filename f)) eqn:Hallowed; [|apply Hfail].
  unfold add_document. destruct (saved f) as [|path|msg]; [|

                                                          |apply Hfail].
  - cbn [loop_rag loop_disk loop_uploaded loop_failed].
    rewrite length_app. simpl List.length.
    split; [lia|]. split; [lia|]. split; auto.
  - destruct (_process_document (world f) path (loop_rag st) (loop_disk st))
      as [[r s'] disk'] eqn:Hrun.
    destruct r.
    + destruct (process_document_shape _ _ _ _ _ _ Hrun) as [d [new [Hd _]]].
      cbn [loop_rag loop_disk loop_uploaded loop_failed].
      rewrite Hd, !length_app. simpl List.length. split; [lia|]. split; [lia|]. split.
      * intros Ha. exact (process_document_aligned _ _ _ _ _ _ _ Ha Hrun).
      * intros Hall. apply Forall_app. split; [exact Hall|].
        constructor; [exact Hallowed | constructor].
    + destruct (process_document_false _ _ _ _ _ _ Hrun) as [-> ->].
      cbn [loop_rag loop_disk loop_uploaded loop_failed].
      rewrite length_app. simpl List.length.
      split; [lia|]. split; [lia|]. split; auto.
Qed.

Lemma upload_loop_inv dept subj (fs : list Upload) :
  forall st,
    let st' := fold_left (upload_one dept subj) fs st in
    (List.length (loop_uploaded st') + List.length (loop_failed st')
     = List.length (loop_uploaded st) + List.length (loop_failed st)
       + List.length fs)%nat
    /\ (List.length (documents (loop_rag st')) + List.length (loop_uploaded st)
        = List.length (documents (loop_rag st)) + List.length (loop_uploaded st'))%nat
    /\ (aligned (loop_rag st) -> aligned (loop_rag st'))
    /\ (Forall (fun e => allowed_file (fst (fst e)) = true) (loop_uploaded st) ->
        Forall (fun e => allowed_file (fst (fst e)) = true) (loop_uploaded st')).
Proof.
  induction fs as [|f fs IH]; intros st; cbv zeta.
  - simpl. split; [lia|]. split; [lia|]. split; auto.
  - simpl fold_left.
    pose proof (upload_one_step dept subj st f) as [H1 [H2 [H3 H4]]].
    pose proof (IH (upload_one dept subj st f)) as [I1 [I2 [I3 I4]]].
    simpl List.length. split; [lia|]. split; [lia|]. split; auto.
Qed.

(** X18.  Without a logged-in user, or with a user whose type is not
    [faculty], [upload_notes] answers 403 and neither the catalog nor the
    disk is touched, whatever the request holds. *)
Theorem upload_notes_requires_faculty session rag_system disk request :
  user_id session = None \/ user_type session <> Some "faculty" ->
  let '(resp, rag', disk') := upload_notes session rag_system disk request in
  status resp = 403 /\ rag' = rag_system /\ disk' = disk
  /\ uploaded_files resp = [].
Proof.
  intros H. unfold upload_notes.
  destruct (user_id session) as [u|]; [|repeat split; reflexivity].
  destruct H as [H|H]; [discriminate|].
  destruct (user_type session) as [t|]; [|repeat split; reflexivity].
  destruct (String.eqb_spec t "faculty") as [->|Hne]; [now elim H|].
  repeat split; reflexivity.
Qed.

(** The request passed the no-file-selected check of [upload_notes]. *)
Lemma selected_check (fs : list Upload) :
  fs <> [] ->
  (forall f, fs = [f] -> upload_filename f <> "") ->
  match fs with
  | [] => true
  | [f] => negb (truthy (upload_filename f))
  | _ => false
  end = false.
Proof.
  intros Hne Hone. destruct fs as [|f [|g fs]]; [now elim Hne| |reflexivity].
  specialize (Hone f eq_refl). apply truthy_not_empty in Hone. now rewrite Hone.
Qed.


(** X20.  For a faculty session with files selected, the catalog after the
    batch holds exactly one more document per file reported as uploaded,
    every such file has a name [allowed_file] accepts, and an aligned
    catalog stays aligned, whatever happened to the other files. *)
Theorem upload_notes_catalog uid rag disk request fs :
  files request = Some fs ->
  fs <> [] ->
  (forall f, fs = [f] -> upload_filename f <> "") ->
  let session := {| user_id := Some uid; user_type := Some "faculty" |} in
  let '(resp, rag', _) := upload_notes session (Some rag) disk request in
  exists s',
    rag' = Some s'
    /\ (List.length (documents s')
        = List.length (documents rag) + List.length (uploaded_files resp))%nat
    /\ Forall (fun e => allowed_file (fst (fst e)) = true) (uploaded_files resp)
    /\ (aligned rag -> aligned s').
Proof.
  intros Hfs Hne Hone. cbv zeta. unfold upload_notes. cbn [user_id user_type].
  simpl negb. rewrite Hfs, (selected_check fs Hne Hone).
  set (st := fold_left _ fs _).
  pose proof (upload_loop_inv (form_get (department request) "General")
                (form_get (subject request) "General") fs
                {| loop_rag := rag; loop_disk := disk;
                   loop_uploaded := []; loop_failed := [] |}) as [_ [H2 [H3 H4]]].
  fold st in H2, H3, H4. cbn [loop_rag loop_uploaded List.length] in H2, H3, H4.
  specialize (H4 (Forall_nil _)). clearbody st.
  destruct (0 <? List.length (loop_uploaded st))%nat;
    exists (loop_rag st); cbn [uploaded_files];
    (split; [reflexivity|]); (split; [lia|]);
    (split; [exact H4 | exact H3]).
Qed.


(** X22.  A query made of white space only is not refused by the route:
    it passes the non-empty check, and the answer is 200 with the fixed
    request for a question as its text, without any outside call. *)
Theorem query_notes_blank uid rag q env :
  q <> "" ->
  truthy (strip q) = false ->
  query_notes {| user_id := Some uid; user_type := None |} (Some rag)
              (Some (Some q)) env
  = ({| status := 200; error := None; success := None; uploaded_files := [];
        failed_files := []; message := None; response := Some blank_reply |}, []).
Proof.
  intros Hq Hblank. unfold query_notes. cbn [user_id].
  apply truthy_not_empty in Hq. rewrite Hq. unfold query. now rewrite Hblank.
Qed.

End Routes.
End AppExtras.

(** ** Further concrete runs *)

Module ExtraScenarios.
Import Py Chunker Rag Rag.Toy RagFacts Ingestion App Samples.
Import IngestExtras RemoveExtras QueryExtras AppExtras.

Lemma two_docs_ingest_only : ingest_only (sys_of two_docs).
Proof.
  eapply (ingest_step (sys_of one_doc) (disk_of one_doc)
            (calm "beta gamma" "2025-01-01 10:05:00") "notes/b.txt" true);
    [|reflexivity].
  eapply (ingest_step (sys_of fresh) (disk_of fresh)
            (calm "alpha" "2025-01-01 10:00:00") "notes/a.txt" true);
    [apply ingest_init | reflexivity].
Qed.

Lemma two_docs_aligned : aligned (sys_of two_docs).
Proof. apply aligned_map. reflexivity. Qed.

Lemma process_document_failure_unchanged_witness :
  _process_document (encode_down "delta" "2025-01-01 11:00:00") "notes/d.txt"
                    (sys_of one_doc) (disk_of one_doc)
  = (false, sys_of one_doc, disk_of one_doc)
  /\ (sys_of one_doc = sys_of one_doc /\ disk_of one_doc = disk_of one_doc).
Proof.
  split; [reflexivity|].
  apply (process_document_failure_unchanged
           (encode_down "delta" "2025-01-01 11:00:00") "notes/d.txt"
           (sys_of one_doc) (disk_of one_doc)).
  reflexivity.
Defined.

Lemma process_document_appends_witness :
  _process_document (calm "beta gamma" "2025-01-01 10:05:00") "notes/b.txt"
                    (sys_of one_doc) (disk_of one_doc)
  = (true, sys_of two_docs, disk_of two_docs)
  /\ exists d new,
      documents (sys_of two_docs) = documents (sys_of one_doc) ++ [d]
      /\ document_chunks (sys_of two_docs) = document_chunks (sys_of one_doc) ++ new
      /\ id d = 1.
Proof.
  split; [reflexivity|].
  destruct (process_document_appends
              (calm "beta gamma" "2025-01-01 10:05:00") "notes/b.txt"
              (sys_of one_doc) (disk_of one_doc) (sys_of two_docs) (disk_of two_docs)
              eq_refl)
    as [d [new [Hd [Hc [_ [_ [Hid _]]]]]]].
  exists d, new. split; [exact Hd|]. split; [exact Hc | exact Hid].
Defined.

Lemma ingest_only_numbered_witness :
  ingest_only (sys_of two_docs) /\ counts_agree (sys_of two_docs) = true.
Proof.
  split; [apply two_docs_ingest_only|].
  apply (ingest_only_numbered (sys_of two_docs)). apply two_docs_ingest_only.
Defined.

Lemma remove_document_numbered_witness :
  (ids_are_positions (sys_of two_docs)
   /\ counts_agree (sys_of two_docs) = true
   /\ 0 <= 0 < llen (documents (sys_of two_docs)))
  /\ exists d s',
      nth_error (documents (sys_of two_docs)) 0 = Some d
      /\ remove_document (calm "" "2025-01-01 10:10:00") 0 (sys_of two_docs)
                         (disk_of two_docs)
         = (true, s', _save_vector_store (calm "" "2025-01-01 10:10:00") s'
                                          (disk_of two_docs))
      /\ llen (document_chunks s')
         = llen (document_chunks (sys_of two_docs)) - chunk_count d.
Proof.
  assert (Hnum : numbered (sys_of two_docs))
    by (apply ingest_only_is_numbered, two_docs_ingest_only).
  destruct Hnum as [Hids [_ [_ Hcnt]]].
  assert (Hr : 0 <= 0 < llen (documents (sys_of two_docs)))
    by (split; [discriminate | reflexivity]).
  split; [split; [exact Hids | split; [exact Hcnt | exact Hr]]|].
  destruct (remove_document_numbered (calm "" "2025-01-01 10:10:00") 0
              (sys_of two_docs) (disk_of two_docs) Hids Hcnt Hr eq_refl eq_refl)
    as [d [s' [Hd [_ [Hrun [_ [_ [Hlen _]]]]]]]].
  exists d, s'. split; [exact Hd|]. split; [exact Hrun | exact Hlen].
Defined.

Lemma remove_document_firestore_failure_witness :
  (0 <= 0 < llen (documents (sys_of two_docs))
   /\ encode_raises (firestore_down "" "2025-01-01 10:10:00") = false
   /\ firestore_raises (firestore_down "" "2025-01-01 10:10:00") = true)
  /\ exists s',
      fst (fst (remove_document (firestore_down "" "2025-01-01 10:10:00") 0
                                (sys_of two_docs) (disk_of two_docs))) = false
      /\ (List.length (documents s') + 1
          = List.length (documents (sys_of two_docs)))%nat.
Proof.
  assert (Hr : 0 <= 0 < llen (documents (sys_of two_docs)))
    by (split; [discriminate | reflexivity]).
  split; [split; [exact Hr | split; reflexivity]|].
  destruct (remove_document_firestore_failure
              (firestore_down "" "2025-01-01 10:10:00") 0
              (sys_of two_docs) (disk_of two_docs) Hr eq_refl eq_refl)
    as [s' [Hrun [Hlen _]]].
  exists s'. split; [now rewrite Hrun | exact Hlen].
Defined.

Lemma restart_after_success_witness :
  (run_op (calm "beta gamma" "2025-01-01 10:05:00") (Ingest "notes/b.txt")
          (sys_of one_doc) (disk_of one_doc)
   = (true, sys_of two_docs, disk_of two_docs)
   /\ save_failure (calm "beta gamma" "2025-01-01 10:05:00") = None)
  /\ document_chunks (_load_or_create_vector_store (disk_of two_docs))
     = document_chunks (sys_of two_docs).
Proof.
  split; [split; reflexivity|].
  apply (restart_after_success
           (calm "beta gamma" "2025-01-01 10:05:00") (Ingest "notes/b.txt")
           (sys_of one_doc) (disk_of one_doc) (sys_of two_docs) (disk_of two_docs)
           eq_refl eq_refl).
Defined.

Lemma blank_query_witness :
  truthy (strip "   ") = false
  /\ query (calm "" "") "   " (sys_of two_docs) = (blank_reply, []).
Proof.
  split; [reflexivity|].
  apply (blank_query (calm "" "") "   " (sys_of two_docs)). reflexivity.
Defined.

Lemma query_encode_failure_witness :
  (truthy (strip "What is alpha?") = true
   /\ document_chunks (sys_of two_docs) <> []
   /\ encode_raises (encode_down "" "") = true)
  /\ query (encode_down "" "") "What is alpha?" (sys_of two_docs)
     = (no_information_reply, [CallEncode ["What is alpha?"]]).
Proof.
  assert (Hne : document_chunks (sys_of two_docs) <> []) by discriminate.
  split; [split; [reflexivity | split; [exact Hne | reflexivity]]|].
  apply (query_encode_failure (encode_down "" "") "What is alpha?"
           (sys_of two_docs) eq_refl Hne eq_refl).
Defined.

Lemma retrieve_top_k_witness :
  (encode_raises (calm "" "") = false
   /\ aligned (sys_of two_docs)
   /\ (2 <= List.length (document_chunks (sys_of two_docs)))%nat
   /\ (0 < 2)%nat)
  /\ List.length (firstn 2 (rank (embed "beta?") (vector_store (sys_of two_docs))))
     = 2%nat.
Proof.
  assert (H2 : (2 <= List.length (document_chunks (sys_of two_docs)))%nat)
    by apply le_n.
  assert (H0 : (0 < 2)%nat) by (apply le_S, le_n).
  split; [split; [reflexivity | split; [apply two_docs_aligned | split; assumption]]|].
  pose proof (retrieve_top_k (calm "" "") "beta?" 2 (sys_of two_docs)
                eq_refl two_docs_aligned H2 H0) as H.
  cbv zeta in H. destruct H as [_ [Hl _]]. exact Hl.
Defined.

Lemma query_answers_witness :
  (truthy (strip "What is alpha?") = true
   /\ encode_raises (calm "" "") = false
   /\ List.length (vector_store (sys_of two_docs))
      = List.length (document_chunks (sys_of two_docs))
   /\ document_chunks (sys_of two_docs) <> [])
  /\ fst (query (calm "" "") "What is alpha?" (sys_of two_docs)) = "ok".
Proof.
  assert (Hne : document_chunks (sys_of two_docs) <> []) by discriminate.
  split; [split; [reflexivity | split; [reflexivity | split; [reflexivity | exact Hne]]]|].
  rewrite (query_answers (calm "" "") "What is alpha?" (sys_of two_docs)
             eq_refl eq_refl eq_refl Hne).
  reflexivity.
Defined.

Lemma office_files_allowed_but_rejected_witness :
  In "docx" ["doc"; "docx"; "ppt"; "pptx"]
  /\ allowed_file "slides/Intro.docx" = true.
Proof.
  split; [right; left; reflexivity|].
  apply (office_files_allowed_but_rejected "slides/Intro" "docx").
  right; left; reflexivity.
Defined.

Lemma upload_notes_requires_faculty_witness :
  (user_id student = None \/ user_type student <> Some "faculty")
  /\ status (fst (fst (upload_notes student (Some (sys_of one_doc))
                                    (disk_of one_doc) sample_request))) = 403.
Proof.
  assert (H : user_id student = None \/ user_type student <> Some "faculty")
    by (right; discriminate).
  split; [exact H|].
  pose proof (upload_notes_requires_faculty student (Some (sys_of one_doc))
                (disk_of one_doc) sample_request H) as Hthm.
  destruct (upload_notes student (Some (sys_of one_doc)) (disk_of one_doc)
                         sample_request) as [[resp rag'] disk'].
  exact (proj1 Hthm).
Defined.

Lemma sample_batch_selected :
  sample_batch <> [] /\ (forall f, sample_batch = [f] -> upload_filename f <> "").
Proof. split; [discriminate | intros f H; discriminate H]. Qed.


Lemma upload_notes_catalog_witness :
  (files sample_request = Some sample_batch
   /\ sample_batch <> []
   /\ (forall f, sample_batch = [f] -> upload_filename f <> ""))
  /\ exists s',
      snd (fst (upload_notes faculty (Some (sys_of fresh)) (disk_of fresh)
                             sample_request)) = Some s'
      /\ (aligned (sys_of fresh) -> aligned s').
Proof.
  destruct sample_batch_selected as [Hne Hone].
  split; [split; [reflexivity | split; assumption]|].
  pose proof (upload_notes_catalog "uid-7" (sys_of fresh) (disk_of fresh)
                sample_request sample_batch eq_refl Hne Hone) as Hthm.
  cbv zeta in Hthm. fold faculty in Hthm.
  destruct (upload_notes faculty (Some (sys_of fresh)) (disk_of fresh)
                         sample_request) as [[resp rag'] disk'].
  destruct Hthm as [s' [Hs [_ [_ Ha]]]]. exists s'. split; [exact Hs | exact Ha].
Defined.

Lemma query_notes_blank_witness :
  ("   " <> "" /\ truthy (strip "   ") = false)
  /\ status (fst (query_notes {| user_id := Some "uid-9"; user_type := None |}
                              (Some (sys_of two_docs)) (Some (Some "   "))
                              (calm "" ""))) = 200.
Proof.
  assert (Hq : "   " <> "") by discriminate.
  split; [split; [exact Hq | reflexivity]|].
  rewrite (query_notes_blank "uid-9" (sys_of two_docs) "   " (calm "" "") Hq eq_refl).
  reflexivity.
Defined.

Lemma load_falls_back_to_empty_witness :
  ((forall vs, index_file half_written <> Stored vs)
   \/ (forall content, docs_file half_written <> Stored content))
  /\ _load_or_create_vector_store half_written = empty_system.
Proof.
  assert (H : (forall vs, index_file half_written <> Stored vs)
              \/ (forall content, docs_file half_written <> Stored content))
    by (right; intros content; discriminate).
  split; [exact H|]. apply (load_falls_back_to_empty half_written H).
Defined.

Lemma remove_document_out_of_range_witness :
  (llen (documents (sys_of one_doc)) <= 5 \/ 5 < - llen (documents (sys_of one_doc)))
  /\ remove_document (calm "" "2025-01-01 10:10:00") 5 (sys_of one_doc)
                     (disk_of one_doc)
     = (false, sys_of one_doc, disk_of one_doc).
Proof.
  assert (H : llen (documents (sys_of one_doc)) <= 5
              \/ 5 < - llen (documents (sys_of one_doc)))
    by (left; discriminate).
  split; [exact H|].
  apply (remove_document_out_of_range (calm "" "2025-01-01 10:10:00") 5
           (sys_of one_doc) (disk_of one_doc) H).
Defined.

Lemma remove_document_realigns_witness :
  (List.length (vector_store (sys_of stale_store)) = 2%nat
   /\ List.length (document_chunks (sys_of stale_store)) = 1%nat
   /\ fst (fst (remove_document (calm "" "2025-01-01 10:20:00") 0
                                (sys_of stale_store) (disk_of stale_store))) = true)
  /\ aligned (snd (fst (remove_document (calm "" "2025-01-01 10:20:00") 0
                                        (sys_of stale_store) (disk_of stale_store)))).
Proof.
  split; [split; [reflexivity | split; reflexivity]|].
  apply (remove_document_realigns (calm "" "2025-01-01 10:20:00") 0
           (sys_of stale_store) (disk_of stale_store) _
           (snd (remove_document (calm "" "2025-01-01 10:20:00") 0
                                 (sys_of stale_store) (disk_of stale_store)))).
  reflexivity.
Defined.

Lemma short_document_one_chunk_witness :
  (extraction_of (calm "alpha" "2025-01-01 10:00:00") "notes/a.txt" = Some "alpha"
   /\ truthy "alpha" = true
   /\ len "alpha" <= 800
   /\ encode_raises (calm "alpha" "2025-01-01 10:00:00") = false)
  /\ exists s' disk',
      _process_document (calm "alpha" "2025-01-01 10:00:00") "notes/a.txt"
                        (sys_of fresh) (disk_of fresh) = (true, s', disk')
      /\ vector_store s' = vector_store (sys_of fresh) ++ [embed "alpha"].
Proof.
  assert (Hl : len "alpha" <= 800) by discriminate.
  split; [split; [reflexivity | split; [reflexivity | split; [exact Hl | reflexivity]]]|].
  destruct (short_document_one_chunk (calm "alpha" "2025-01-01 10:00:00")
              "notes/a.txt" (sys_of fresh) (disk_of fresh) "alpha"
              eq_refl eq_refl Hl eq_refl) as [s' [disk' [Hrun [_ Hv]]]].
  exists s', disk'. split; [exact Hrun | exact Hv].
Defined.

Lemma prompt_names_sources_witness :
  In {| hit_chunk := {| doc_id := 0; chunk_id := 0; text := "alpha";
                        chunk_filename := "a.txt"; chunk_index := 0 |};
        similarity_score := 5 |}
     (fst (_retrieve_relevant_chunks (calm "" "") "What is alpha?" 1
                                     (sys_of one_doc)))
  /\ exists pre post,
      prompt_of "What is alpha?"
                (fst (_retrieve_relevant_chunks (calm "" "") "What is alpha?" 1
                                                (sys_of one_doc)))
      = (pre ++ ("From " ++ "a.txt" ++ ":" ++ nl ++ "alpha") ++ post)%string.
Proof.
  assert (Hin : In {| hit_chunk := {| doc_id := 0; chunk_id := 0; text := "alpha";
                                      chunk_filename := "a.txt"; chunk_index := 0 |};
                      similarity_score := 5 |}
                   (fst (_retrieve_relevant_chunks (calm "" "") "What is alpha?" 1
                                                   (sys_of one_doc))))
    by (left; reflexivity).
  split; [exact Hin|].
  exact (proj1 (prompt_names_sources "What is alpha?" _ _ Hin)).
Defined.

End ExtraScenarios.
